(** * VerifyFlow: the report front end (web/script.js and its reduced twin)

    A shallow embedding of the decision logic of the VerifyFlow web client:
    the order-number validator, the severity filter, the location buckets,
    the hint generators and the text export of a report.

    JavaScript strings are sequences of UTF-16 code units; they are modelled
    as [list N].  The literals of the source are written as Rocq string
    literals (UTF-8 in this file) and decoded by [u]. *)

From Stdlib Require Import List NArith ZArith Ascii String Bool Lia.
From Stdlib Require Import DecimalString.
Import ListNotations.

Open Scope N_scope.

(* ===================================================================== *)
(** ** JavaScript strings *)
(* ===================================================================== *)

Module JS.

Definition str := list N.

Fixpoint bytes_of (s : string) : list N :=
  match s with
  | EmptyString => []
  | String c r => N_of_ascii c :: bytes_of r
  end.

(** UTF-8 bytes to code points (well-formed input, as the literals are). *)
Fixpoint utf8_decode (bs : list N) : list N :=
  match bs with
  | [] => []
  | b0 :: r =>
      if b0 <? 128 then b0 :: utf8_decode r
      else if b0 <? 224 then
        match r with
        | b1 :: r1 => ((b0 - 192) * 64 + (b1 - 128)) :: utf8_decode r1
        | _ => []
        end
      else if b0 <? 240 then
        match r with
        | b1 :: b2 :: r2 =>
            ((b0 - 224) * 4096 + (b1 - 128) * 64 + (b2 - 128)) :: utf8_decode r2
        | _ => []
        end
      else
        match r with
        | b1 :: b2 :: b3 :: r3 =>
            ((b0 - 240) * 262144 + (b1 - 128) * 4096 + (b2 - 128) * 64 + (b3 - 128))
              :: utf8_decode r3
        | _ => []
        end
  end.

(** Code points to UTF-16 code units: surrogate pairs above the BMP. *)
Definition utf16_units (cp : N) : list N :=
  if cp <? 65536 then [cp]
  else [55296 + (cp - 65536) / 1024; 56320 + (cp - 65536) mod 1024].

Definition u (s : string) : str := flat_map utf16_units (utf8_decode (bytes_of s)).

Definition str_eqb (a b : str) : bool :=
  if list_eq_dec N.eq_dec a b then true else false.

(** [s.startsWith(p)] and [s.includes(sub)] *)
Fixpoint startsWith (s p : str) {struct p} : bool :=
  match p, s with
  | [], _ => true
  | _ :: _, [] => false
  | a :: p', b :: s' => (a =? b) && startsWith s' p'
  end.

Fixpoint includes (s sub : str) : bool :=
  startsWith s sub ||
  match s with
  | [] => false
  | _ :: s' => includes s' sub
  end.

(** [s.toLowerCase()], modelled on the alphabets this program's texts use:
    the capitals of Basic Latin, of Latin-1 and of the Cyrillic block
    U+0400..U+042F move to their small letters. Every other code unit is kept
    as it is, which is where the model stops following Unicode. The
    properties below use it on Latin and Russian text only. *)
Definition lowerUnit (c : N) : N :=
  if (65 <=? c) && (c <=? 90) then c + 32
  else if (192 <=? c) && (c <=? 222) && negb (c =? 215) then c + 32
  else if (1024 <=? c) && (c <=? 1039) then c + 80
  else if (1040 <=? c) && (c <=? 1071) then c + 32
  else c.

Definition toLowerCase (s : str) : str := map lowerUnit s.

(** [s.toUpperCase()], same alphabets and same limit (the export applies it
    to the four Russian severity labels only). *)
Definition upperUnit (c : N) : N :=
  if (97 <=? c) && (c <=? 122) then c - 32
  else if (224 <=? c) && (c <=? 254) && negb (c =? 247) then c - 32
  else if (1104 <=? c) && (c <=? 1119) then c - 80
  else if (1072 <=? c) && (c <=? 1103) then c - 32
  else c.

Definition toUpperCase (s : str) : str := map upperUnit s.

(** White space and line terminators of ECMAScript: what [trim] strips and
    what [\s] matches. *)
Definition isWhiteSpace (c : N) : bool :=
  ((9 <=? c) && (c <=? 13)) || (c =? 32) || (c =? 160) || (c =? 5760)
  || ((8192 <=? c) && (c <=? 8202)) || (c =? 8232) || (c =? 8233)
  || (c =? 8239) || (c =? 8287) || (c =? 12288) || (c =? 65279).

Fixpoint trimStart (s : str) : str :=
  match s with
  | [] => []
  | c :: r => if isWhiteSpace c then trimStart r else s
  end.

Definition trimEnd (s : str) : str := rev (trimStart (rev s)).

Definition trim (s : str) : str := trimEnd (trimStart s).

(** [s.split(sep)] for a one-unit separator. *)
Fixpoint split (sep : N) (s : str) : list str :=
  match s with
  | [] => [[]]
  | c :: r =>
      if c =? sep then [] :: split sep r
      else match split sep r with
           | h :: t => (c :: h) :: t
           | [] => [[c]]
           end
  end.

(** [s.substring(0, n)] *)
Definition substring0 (n : nat) (s : str) : str := firstn n s.

(** [c.repeat(n)] for a one-unit string *)
Definition repeat1 (c : N) (n : nat) : str := repeat c n.

(** [s.replace(/\n/g, r)] *)
Definition replaceNewlines (r : str) (s : str) : str :=
  flat_map (fun c => if c =? 10 then r else [c]) s.

(** Number to string, for the integers the reports carry. *)
Definition ofZ (z : Z) : str := bytes_of (NilEmpty.string_of_int (Z.to_int z)).
Definition ofNat (n : nat) : str := ofZ (Z.of_nat n).

(** A property read from a parsed JSON object: missing, [null], or there. *)
Inductive prop (A : Type) : Type :=
| undefined
| null
| val (a : A).
Arguments undefined {A}.
Arguments null {A}.
Arguments val {A} a.

(** Truthiness of a string-valued property: there and not empty. *)
Definition truthy (p : prop str) : bool :=
  match p with
  | val (_ :: _) => true
  | _ => false
  end.

(** [p || d] on a string-valued property *)
Definition orElse (p : prop str) (d : str) : str :=
  match p with
  | val (c :: r) => c :: r
  | _ => d
  end.

(** A property inside a template literal *)
Definition show (p : prop str) : str :=
  match p with
  | undefined => u "undefined"
  | null => u "null"
  | val s => s
  end.

End JS.

Import JS.

(* ===================================================================== *)
(** ** Regular expressions of the validator *)
(* ===================================================================== *)

Module Regex.

(** A regular expression over code units, matched by derivatives. *)
Inductive re : Type :=
| Never
| Eps
| Cls (p : N -> bool)
| Seq (a b : re)
| Alt (a b : re)
| Star (a : re).

Fixpoint nullable (r : re) : bool :=
  match r with
  | Never => false
  | Eps => true
  | Cls _ => false
  | Seq a b => nullable a && nullable b
  | Alt a b => nullable a || nullable b
  | Star _ => true
  end.

Fixpoint deriv (c : N) (r : re) : re :=
  match r with
  | Never => Never
  | Eps => Never
  | Cls p => if p c then Eps else Never
  | Seq a b =>
      if nullable a then Alt (Seq (deriv c a) b) (deriv c b)
      else Seq (deriv c a) b
  | Alt a b => Alt (deriv c a) (deriv c b)
  | Star a => Seq (deriv c a) (Star a)
  end.

(** The strings a regular expression denotes. *)
Inductive matches : re -> str -> Prop :=
| MEps : matches Eps []
| MCls (p : N -> bool) (c : N) : p c = true -> matches (Cls p) [c]
| MSeq (a b : re) (s t : str) :
    matches a s -> matches b t -> matches (Seq a b) (s ++ t)
| MAltL (a b : re) (s : str) : matches a s -> matches (Alt a b) s
| MAltR (a b : re) (s : str) : matches b s -> matches (Alt a b) s
| MStarNil (a : re) : matches (Star a) []
| MStarApp (a : re) (s t : str) :
    matches a s -> matches (Star a) t -> matches (Star a) (s ++ t).

(** [/^r$/.test(s)] *)
Definition fullMatch (r : re) (s : str) : bool :=
  nullable (fold_left (fun r c => deriv c r) s r).

Definition Plus (a : re) : re := Seq a (Star a).
Definition Opt (a : re) : re := Alt a Eps.

(** [a{lo,lo+extra}] *)
Fixpoint Upto (extra : nat) (a : re) : re :=
  match extra with
  | O => Eps
  | S k => Opt (Seq a (Upto k a))
  end.

Fixpoint Rep (lo extra : nat) (a : re) : re :=
  match lo with
  | O => Upto extra a
  | S k => Seq a (Rep k extra a)
  end.

Definition between (lo hi c : N) : bool := (lo <=? c) && (c <=? hi).
Definition oneOf (set : str) (c : N) : bool := existsb (N.eqb c) set.

(** [\d] *)
Definition digit (c : N) : bool := between 48 57 c.

(** [/[set]/.test(s)]: some unit of [s] is in the class. *)
Definition testClass (p : N -> bool) (s : str) : bool := existsb p s.

End Regex.

(* ===================================================================== *)
(** ** Data model *)
(* ===================================================================== *)

(** An issue as the audit service sends it (and as the validator builds it). *)
Record Issue : Type := mkIssue {
  message : prop str;
  severity : prop str;
  location : prop str;
  rule : prop str;
  evidence : prop str;
  how_to_fix : prop str
}.

Record Summary : Type := mkSummary {
  critical : prop Z;
  warning : prop Z;
  info : prop Z;
  total : prop Z
}.

(** [summary] is [None] when the property is missing or null; [issues] is
    [None] when the property is not an array. *)
Record Report : Type := mkReport {
  profile : prop str;
  summary : option Summary;
  issues : option (list Issue)
}.

Record Comment : Type := mkComment {
  text : str;
  timestamp : str
}.

(* ===================================================================== *)
(** ** validateOrderNumber *)
(* ===================================================================== *)

Module Validator.

Import Regex.

Record Validation : Type := mkValidation {
  isValid : bool;
  errors : list Issue;
  warnings : list Issue
}.

(** The object literals pushed by the validator: severity, message,
    how_to_fix, rule. *)
Definition synthetic (sev msg how rl : str) : Issue :=
  {| message := val msg; severity := val sev; location := undefined;
     rule := val rl; evidence := undefined; how_to_fix := val how |}.

Definition missingWarning : Issue :=
  synthetic (u "warning")
    (u "Не указан номер приказа/распоряжения")
    (u "Рекомендуется указать номер официального документа для отчётности")
    (u "ORDER_NUMBER_MISSING").

Definition tooShortError : Issue :=
  synthetic (u "critical")
    (u "Номер приказа слишком короткий")
    (u "Номер должен содержать не менее 3 символов")
    (u "ORDER_NUMBER_TOO_SHORT").

Definition formatWarning : Issue :=
  synthetic (u "warning")
    (u "Номер приказа имеет нестандартный формат")
    (u "Рекомендуемый формат: 'XXX/ГГГГ' или 'XXX/ГГГГ-ГГГГ' (например, '123/2024')")
    (u "ORDER_NUMBER_FORMAT_WARNING").

Definition invalidCharsError : Issue :=
  synthetic (u "critical")
    (u "Номер приказа содержит недопустимые символы")
    (u "Удалите специальные символы: < > # @ $ % ^ & * ( ) + = | { } [ ] : ; "
       ++ [34] ++ u " ' ` ~")
    (u "ORDER_NUMBER_INVALID_CHARS").

(** [[а-яА-Яa-zA-Z0-9\-\/\.\s]] *)
Definition formatHead (c : N) : bool :=
  between 1072 1103 c || between 1040 1071 c
  || between 97 122 c || between 65 90 c || between 48 57 c
  || (c =? 45) || (c =? 47) || (c =? 46) || isWhiteSpace c.

(** [/^[а-яА-Яa-zA-Z0-9\-\/\.\s]+\/\d{2,4}([-\/]\d{2,4})?$/] *)
Definition formatRegex : re :=
  Seq (Plus (Cls formatHead))
    (Seq (Cls (N.eqb 47))
       (Seq (Rep 2 2 (Cls digit))
          (Opt (Seq (Cls (oneOf (u "-/"))) (Rep 2 2 (Cls digit)))))).

(** The units of the class of [invalidCharRegex]; unit 34 is the double
    quote. *)
Definition invalidChars : str :=
  u "<>#@$%^&*()+=|{}[]:;" ++ [34] ++ u "'`~".

Definition invalidChar (c : N) : bool := oneOf invalidChars c.

Definition validateOrderNumber (orderNumber : str) : Validation :=
  if str_eqb orderNumber [] || str_eqb (trim orderNumber) [] then
    {| isValid := true; errors := []; warnings := [missingWarning] |}
  else
    let trimmed := trim orderNumber in
    let errors1 :=
      if (N.of_nat (List.length trimmed) <? 3) then [tooShortError] else [] in
    let warnings1 :=
      if negb (fullMatch formatRegex trimmed) then [formatWarning] else [] in
    let errors2 :=
      if testClass invalidChar trimmed then errors1 ++ [invalidCharsError]
      else errors1 in
    {| isValid := match errors2 with [] => true | _ => false end;
       errors := errors2;
       warnings := warnings1 |}.

End Validator.

Import Validator.

(* ===================================================================== *)
(** ** Small helpers shared by the two renderers and the export *)
(* ===================================================================== *)

Definition nl : str := [10].

(** [p && f(p)] for a string-valued property [p] *)
Definition whenStr (p : prop str) (f : str -> bool) : bool :=
  match p with
  | val (c :: r) => f (c :: r)
  | _ => false
  end.

(** [p ?? d] for a number-valued property *)
Definition nullish (p : prop Z) (d : Z) : Z :=
  match p with
  | val z => z
  | _ => d
  end.

(** [p || 0] for a number-valued property *)
Definition orZero (p : prop Z) : Z :=
  match p with
  | val z => if (z =? 0)%Z then 0%Z else z
  | _ => 0%Z
  end.

(** [list.map((x, i) => f(x, i))] *)
Fixpoint mapi_from {A B : Type} (i : nat) (f : A -> nat -> B) (l : list A) : list B :=
  match l with
  | [] => []
  | x :: r => f x i :: mapi_from (S i) f r
  end.

Definition mapi {A B : Type} (f : A -> nat -> B) (l : list A) : list B :=
  mapi_from 0 f l.

Definition esc (s : str) : str :=
  flat_map (fun c =>
    if c =? 38 then u "&amp;"
    else if c =? 60 then u "&lt;"
    else if c =? 62 then u "&gt;"
    else if c =? 34 then u "&quot;"
    else if c =? 39 then u "&#39;"
    else [c]) s.

Definition sevLabel (sev : str) : str :=
  if str_eqb sev (u "critical") then u "Критично"
  else if str_eqb sev (u "warning") then u "Предупреждение"
  else if str_eqb sev (u "info") then u "Информация"
  else u "ОК".

Definition dotClass (sev : str) : str :=
  if str_eqb sev (u "critical") || str_eqb sev (u "warning") || str_eqb sev (u "info")
  then sev else u "ok".

(** The default of [report.summary || {critical:0, warning:0, info:0, total:0}] *)
Definition defaultSummary : Summary :=
  {| critical := val 0%Z; warning := val 0%Z; info := val 0%Z; total := val 0%Z |}.

Definition summaryOf (report : Report) : Summary :=
  match summary report with
  | Some s => s
  | None => defaultSummary
  end.

(** [Array.isArray(report.issues) ? report.issues : []] *)
Definition issuesOf (report : Report) : list Issue :=
  match issues report with
  | Some l => l
  | None => []
  end.

(** [const total = (s.total ?? issues.length ?? 0)] of renderReport (the same
    line in both files) *)
Definition displayedTotal (report : Report) : Z :=
  nullish (total (summaryOf report)) (Z.of_nat (List.length (issuesOf report))).

(** The callback of [issues.filter] in renderReport (the same in both files) *)
Definition visible (currentFilter : str) (it : Issue) : bool :=
  if str_eqb currentFilter (u "all") then true
  else str_eqb (toLowerCase (orElse (severity it) [])) currentFilter.

Definition filtered (currentFilter : str) (l : list Issue) : list Issue :=
  filter (visible currentFilter) l.

(** [evidence && evidence !== "—" && evidence !== "-"] *)
Definition shownEvidence (e : prop str) : bool :=
  whenStr e (fun s => negb (str_eqb s (u "—")) && negb (str_eqb s (u "-"))).

(* ===================================================================== *)
(** ** Hint generators *)
(* ===================================================================== *)

Module Hints.

(** The condition that opens the name (ФИО) branch, in renderReport and in the
    export alike. *)
Definition fioKeywords (m : str) : bool :=
  includes m (u "ФИО") || includes m (u "фио") || includes m (u "Фамилия")
  || includes m (u "студент") || includes m (u "руководитель")
  || includes m (u "падеж") || includes m (u "сокращени").

Definition isFIO (it : Issue) : bool := whenStr (message it) fioKeywords.

(** The condition of the order-number branch of renderReport. *)
Definition isOrderNumber (it : Issue) : bool :=
  whenStr (message it) (fun m =>
    includes m (u "номер приказа") || includes m (u "приказ")
    || includes m (u "распоряжение")
    || whenStr (rule it) (fun r => includes r (u "OrderNumber"))).

Definition fioStudent : str :=
  u "Ищите ФИО студента после слов 'обучающегося', 'допустить', 'студента' на титульной странице".
Definition fioSupervisor : str :=
  u "Ищите ФИО руководителя после слов 'руководитель', 'научный руководитель' на титульной странице".
Definition fioAbbreviation : str :=
  u "Найдите все сокращения вида 'И.И. Иванов' и замените на полное имя 'Иван Иванович Иванов'".
Definition fioCase : str :=
  u "Проверьте падеж ФИО после предлогов: 'от студента' → родительный падеж".
Definition fioAll : str :=
  u "Проверьте все упоминания ФИО на титульной странице и в документах".
Definition fioGeneric : str :=
  u "Проверьте правильность написания ФИО в документе".

Definition getFIOHint (errorMessage : str) (evidence : prop str) : str :=
  let message := toLowerCase errorMessage in
  let afterNotFound :=
    if includes message (u "сокращения") || includes message (u "и.о.")
       || includes message (u "и. о.")
    then fioAbbreviation
    else if includes message (u "падеж") || includes message (u "падеже")
    then fioCase
    else if includes message (u "фио") || includes message (u "фамилия")
    then
      if shownEvidence evidence && includes (orElse evidence []) (u "...")
      then u "Ищите в тексте: " ++ [34] ++ substring0 60 (orElse evidence [])
           ++ u "..." ++ [34]
      else fioAll
    else fioGeneric in
  if includes message (u "не найдено") then
    if includes message (u "обучающегося") || includes message (u "студент")
    then fioStudent
    else if includes message (u "руководителя") || includes message (u "руководитель")
    then fioSupervisor
    else afterNotFound
  else afterNotFound.

Definition orderNotFound : str :=
  u "Ищите номер приказа/распоряжения в шапке документа, обычно в формате: '№ 33.02-05/334' или 'Приказ №123/2024'".
Definition orderFormat : str :=
  u "Проверьте формат номера. Примеры правильных форматов:" ++ nl
  ++ u "• 33.02-05/334 (код подразделения-номер/порядковый)" ++ nl
  ++ u "• 123/2024 (номер/год)" ++ nl
  ++ u "• 456-р (номер-буква указа)".
Definition orderChars : str :=
  u "В номере приказа разрешены только: цифры 0-9, точка ., тире -, слэш /. Удалите другие символы.".
Definition orderShort : str :=
  u "Номер приказа должен содержать минимум 3 символа (например, '1/24' — неправильно, '123/2024' — правильно)".
Definition orderGeneric : str :=
  u "Проверьте номер приказа/распоряжения в документе".

Definition getOrderNumberHint (errorMessage : str) (evidence : prop str) : str :=
  let message := toLowerCase errorMessage in
  if includes message (u "не найден номер") then orderNotFound
  else if includes message (u "нестандартный формат") then orderFormat
  else if includes message (u "недопустимые символы") then orderChars
  else if includes message (u "слишком короткий") then orderShort
  else orderGeneric.

End Hints.

(* ===================================================================== *)
(** ** Location buckets *)
(* ===================================================================== *)

Module Buckets.

(** [loc.split(":")[1]] inside a template literal *)
Definition pageNum (loc : str) : str :=
  match nth_error (split 58 loc) 1 with
  | Some p => p
  | None => u "undefined"
  end.

(** The label computed for one issue inside the [forEach] of
    getLocationSummary (and of the export, which repeats it); [None] is the
    early [return] on a missing location. *)
Definition locationName (issue : Issue) : option str :=
  match location issue with
  | val (c :: r) =>
      let loc := c :: r in
      Some
        (if whenStr (message issue)
              (fun m => includes m (u "ФИО") || includes m (u "фио"))
         then u "Ошибки ФИО"
         else if str_eqb loc (u "title_page") then u "Титульная страница"
         else if includes loc (u "page:") then u "Страница " ++ pageNum loc
         else if str_eqb loc (u "calendar_plan_table")
         then u "Таблица календарного плана"
         else if str_eqb loc (u "document") then u "Основной текст"
         else loc)
  | _ => None
  end.

(** [locationCounts[k] = (locationCounts[k] || 0) + 1] on an object used as a
    map, kept as an association list in insertion order. This is what the
    object does for every label that is not a property name inherited from
    [Object.prototype] (under "constructor" the script stores a string, under
    "__proto__" nothing), and [Object.entries] lists the labels in this order
    except that labels that are array indices come first; the properties
    below that speak of a count name the first condition, and none speaks of
    the order. *)
Fixpoint bump (k : str) (m : list (str * nat)) : list (str * nat) :=
  match m with
  | [] => [(k, 1%nat)]
  | (k', n) :: r =>
      if str_eqb k k' then (k', S n) :: r else (k', n) :: bump k r
  end.

Definition locationCounts (l : list Issue) : list (str * nat) :=
  fold_left
    (fun m issue =>
       match locationName issue with
       | Some k => bump k m
       | None => m
       end)
    l [].

Definition spreadLine : str := u "Ошибки распределены по всему документу".

Definition iconOf (loc : str) : str :=
  if includes loc (u "ФИО") then u "👤"
  else if includes loc (u "Титульная") then u "📋"
  else if includes loc (u "Страница") then u "📖"
  else if includes loc (u "Таблица") then u "📊"
  else u "•".

(** getLocationSummary without its markup: either the fixed line or one
    (icon, label, count) row per bucket. *)
Inductive LocationSummary : Type :=
| Spread (line : str)
| Rows (rows : list (str * str * nat)).

Definition getLocationSummary (l : list Issue) : LocationSummary :=
  match locationCounts l with
  | [] => Spread spreadLine
  | m => Rows (map (fun '(loc, count) => (iconOf loc, loc, count)) m)
  end.

End Buckets.

(* ===================================================================== *)
(** ** renderReport (web/script.js) *)
(* ===================================================================== *)

(** The label of the empty-filter message: [labelMap[currentFilter] || "Все"] *)
Definition filterLabel (currentFilter : str) : str :=
  if str_eqb currentFilter (u "critical") then u "Критичные"
  else if str_eqb currentFilter (u "warning") then u "Предупреждения"
  else if str_eqb currentFilter (u "info") then u "Инфо"
  else u "Все".

Module Full.

Import Hints Buckets.

(** The ambient variables of the script. [chosen] keeps the file name. *)
Record Session : Type := mkSession {
  chosen : option str;
  lastReport : option Report;
  comments : list Comment;
  currentFilter : str
}.

(** [locationBadge] without its markup: which of the three templates was
    filled, and with what text. [BadgeNone] is the initial empty string. *)
Inductive LocationBadge : Type :=
| BadgeNone
| BadgeFIO (hint : str)
| BadgeOrderNumber (hint : str)
| BadgeLocation (icon locationText : str).

(** One rendered issue: the texts that the template of [filtered.map]
    interpolates. An absent fragment is the empty string of the source. *)
Record IssueCard : Type := mkCard {
  cardIndex : nat;
  cardDot : str;
  cardLabel : str;
  cardRule : option str;
  cardMessage : str;
  cardEvidenceHint : option str;
  cardBadge : LocationBadge;
  cardHow : option str
}.

Definition evidenceHint (it : Issue) : option str :=
  if shownEvidence (evidence it) then Some (esc (orElse (evidence it) []))
  else None.

Definition locationBadge (it : Issue) : LocationBadge :=
  if isFIO it then
    BadgeFIO (getFIOHint (orElse (message it) []) (evidence it))
  else if isOrderNumber it then
    BadgeOrderNumber
      (replaceNewlines (u "<br>")
         (getOrderNumberHint (orElse (message it) []) (evidence it)))
  else
    match location it with
    | val (c :: r) =>
        let loc := c :: r in
        if str_eqb loc (u "title_page") then
          BadgeLocation (u "📋") (u "Титульная страница (первая страница документа)")
        else if str_eqb loc (u "document") then
          BadgeLocation (u "📄") (u "Основной текст документа")
        else if str_eqb loc (u "calendar_plan_table") then
          BadgeLocation (u "📊") (u "Таблица календарного плана")
        else if includes loc (u "page:") then
          BadgeLocation (u "📖")
            (u "Страница " ++ pageNum loc
               ++ u " (перейдите на эту страницу в документе)")
        else BadgeLocation (u "📍") loc
    | _ => BadgeNone
    end.

Definition renderIssue (it : Issue) (index : nat) : IssueCard :=
  let sev := toLowerCase (orElse (severity it) (u "info")) in
  {| cardIndex := index;
     cardDot := dotClass sev;
     cardLabel := sevLabel sev;
     cardRule := if truthy (rule it) then Some (esc (orElse (rule it) [])) else None;
     cardMessage := esc (orElse (message it) (u "Нарушение"));
     cardEvidenceHint := evidenceHint it;
     cardBadge := locationBadge it;
     cardHow :=
       if truthy (how_to_fix it) then Some (esc (orElse (how_to_fix it) []))
       else None |}.

Inductive IssuesArea : Type :=
| NoIssues
| NothingForFilter (label : str)
| Cards (cards : list IssueCard).

Record View : Type := mkView {
  viewProfile : str;
  viewTotal : Z;
  viewCritical : Z;
  viewWarning : Z;
  viewInfo : Z;
  viewLocations : LocationSummary;
  viewShown : nat;
  viewOutOf : nat;
  viewIssues : IssuesArea
}.

(** renderReport: stores the report and builds the page. The document
    parameters card and the comment form carry no decision and are left out. *)
Definition renderReport (report : Report) (st : Session) : Session * View :=
  let st' := {| chosen := chosen st; lastReport := Some report;
                comments := comments st; currentFilter := currentFilter st |} in
  let s := summaryOf report in
  let l := issuesOf report in
  let shown := filtered (currentFilter st') l in
  (st',
   {| viewProfile := esc (orElse (profile report) (u "нет"));
      viewTotal := displayedTotal report;
      viewCritical := nullish (critical s) 0%Z;
      viewWarning := nullish (warning s) 0%Z;
      viewInfo := nullish (info s) 0%Z;
      viewLocations := getLocationSummary l;
      viewShown := List.length shown;
      viewOutOf := List.length l;
      viewIssues :=
        match l, shown with
        | [], _ => NoIssues
        | _, [] => NothingForFilter (filterLabel (currentFilter st'))
        | _, _ => Cards (mapi renderIssue shown)
        end |}).

(** The click handler of a filter chip: set the filter, render again. *)
Definition clickFilter (f : str) (st : Session) : option (Session * View) :=
  let st1 := {| chosen := chosen st; lastReport := lastReport st;
                comments := comments st; currentFilter := f |} in
  match lastReport st1 with
  | Some report => Some (renderReport report st1)
  | None => None
  end.

(** resetUI *)
Definition resetUI (st : Session) : Session :=
  {| chosen := None; lastReport := None; comments := []; currentFilter := u "all" |}.

End Full.

(* ===================================================================== *)
(** ** renderReport of the reduced script (no hints, no comments) *)
(* ===================================================================== *)

Module Reduced.

Record Session : Type := mkSession {
  chosen : option str;
  lastReport : option Report;
  currentFilter : str
}.

Record IssueCard : Type := mkCard {
  cardIndex : nat;
  cardDot : str;
  cardLabel : str;
  cardRule : option str;
  cardMessage : str;
  cardHow : option str
}.

Definition renderIssue (it : Issue) (index : nat) : IssueCard :=
  let sev := toLowerCase (orElse (severity it) (u "info")) in
  {| cardIndex := index;
     cardDot := dotClass sev;
     cardLabel := sevLabel sev;
     cardRule := if truthy (rule it) then Some (esc (orElse (rule it) [])) else None;
     cardMessage := esc (orElse (message it) (u "Нарушение"));
     cardHow :=
       if truthy (how_to_fix it) then Some (esc (orElse (how_to_fix it) []))
       else None |}.

Inductive IssuesArea : Type :=
| NoIssues
| NothingForFilter (label : str)
| Cards (cards : list IssueCard).

Record View : Type := mkView {
  viewProfile : str;
  viewTotal : Z;
  viewCritical : Z;
  viewWarning : Z;
  viewInfo : Z;
  viewShown : nat;
  viewOutOf : nat;
  viewIssues : IssuesArea
}.

Definition renderReport (report : Report) (st : Session) : Session * View :=
  let st' := {| chosen := chosen st; lastReport := Some report;
                currentFilter := currentFilter st |} in
  let s := summaryOf report in
  let l := issuesOf report in
  let shown := filtered (currentFilter st') l in
  (st',
   {| viewProfile := esc (orElse (profile report) (u "нет"));
      viewTotal := displayedTotal report;
      viewCritical := nullish (critical s) 0%Z;
      viewWarning := nullish (warning s) 0%Z;
      viewInfo := nullish (info s) 0%Z;
      viewShown := List.length shown;
      viewOutOf := List.length l;
      viewIssues :=
        match l, shown with
        | [], _ => NoIssues
        | _, [] => NothingForFilter (filterLabel (currentFilter st'))
        | _, _ => Cards (mapi renderIssue shown)
        end |}).

Definition clickFilter (f : str) (st : Session) : option (Session * View) :=
  let st1 := {| chosen := chosen st; lastReport := lastReport st;
                currentFilter := f |} in
  match lastReport st1 with
  | Some report => Some (renderReport report st1)
  | None => None
  end.

End Reduced.

(* ===================================================================== *)
(** ** downloadReportWithComments *)
(* ===================================================================== *)

Module Download.

Import Hints Buckets Full.

(** What the export reads besides the session: the clock, as
    [new Date().toLocaleString('ru-RU')] prints it, and the value of the
    order-number field ([None] when the page has no such field). *)
Record Env : Type := mkEnv {
  now : str;
  orderNumberInput : option str
}.

Definition rule60 : str := repeat1 61 60.
Definition rule40 : str := repeat (9472) 40.

Definition isEmpty (s : str) : bool :=
  match s with [] => true | _ => false end.

Definition header (env : Env) (st : Session) (report : Report) : str :=
  u "ОТЧЁТ ПРОВЕРКИ ДОКУМЕНТА" ++ nl
  ++ u "Дата проверки: " ++ now env ++ nl
  ++ u "Профиль проверки: " ++ orElse (profile report) (u "не указан") ++ nl
  ++ u "Файл: "
  ++ match chosen st with Some name => name | None => u "не указан" end ++ nl
  ++ (let orderNumber :=
        match orderNumberInput env with Some v => v | None => [] end in
      if isEmpty (trim orderNumber) then []
      else u "Номер приказа: " ++ trim orderNumber ++ nl)
  ++ nl ++ rule60 ++ nl ++ nl.

Definition summarySection (report : Report) : str :=
  let s := summaryOf report in
  u "СВОДКА:" ++ nl
  ++ u "Всего нарушений: " ++ ofZ (orZero (total s)) ++ nl
  ++ u "Критичных: " ++ ofZ (orZero (critical s)) ++ nl
  ++ u "Предупреждений: " ++ ofZ (orZero (warning s)) ++ nl
  ++ u "Информационных: " ++ ofZ (orZero (info s)) ++ nl ++ nl.

Definition distributionSection (l : list Issue) : str :=
  u "РАСПРЕДЕЛЕНИЕ ОШИБОК ПО ДОКУМЕНТУ:" ++ nl
  ++ rule40 ++ nl
  ++ match locationCounts l with
     | [] => spreadLine ++ nl
     | m =>
         flat_map
           (fun '(loc, count) =>
              u "• " ++ loc ++ u ": " ++ ofNat count ++ u " ошибок" ++ nl)
           m
     end
  ++ nl ++ rule60 ++ nl ++ nl.

Definition whereStudent : str :=
  u "ГДЕ ИСКАТЬ: Ищите ФИО студента после слов 'обучающегося', 'допустить', 'студента' на титульной странице" ++ nl.
Definition whereSupervisor : str :=
  u "ГДЕ ИСКАТЬ: Ищите ФИО руководителя после слов 'руководитель', 'научный руководитель' на титульной странице" ++ nl.
Definition whereAbbreviation : str :=
  u "ГДЕ ИСКАТЬ: Найдите все сокращения вида 'И.И. Иванов' в документе" ++ nl
  ++ u "ПРАВИЛЬНЫЙ ФОРМАТ: 'Иван Иванович Иванов' (полное имя без точек)" ++ nl
  ++ u "ПРИМЕР: ❌ И.И. Иванов → ✅ Иван Иванович Иванов" ++ nl.
Definition whereCase : str :=
  u "ГДЕ ИСКАТЬ: Проверьте падеж ФИО после предлогов в документе" ++ nl
  ++ u "ПРАВИЛО: 'от студента' требует родительный падеж" ++ nl
  ++ u "ПРИМЕР: ❌ от студент Иванов Иван → ✅ от студента Иванова Ивана" ++ nl.
Definition whereAll : str :=
  u "ГДЕ ИСКАТЬ: Проверьте все упоминания ФИО на титульной странице" ++ nl.

(** The name branch of the export: every sub-rule assigns [detailedHint]. *)
Definition fioDetailedHint (issueMessage : str) : str :=
  let message := toLowerCase issueMessage in
  let detailedHint := [] in
  let detailedHint :=
    if includes message (u "не найдено") then
      let detailedHint :=
        if includes message (u "обучающегося") || includes message (u "студент")
        then whereStudent else detailedHint in
      if includes message (u "руководителя") || includes message (u "руководитель")
      then whereSupervisor else detailedHint
    else detailedHint in
  let detailedHint :=
    if includes message (u "сокращения") || includes message (u "и.о.")
       || includes message (u "и. о.")
    then whereAbbreviation else detailedHint in
  let detailedHint :=
    if includes message (u "падеж") || includes message (u "падеже")
    then whereCase else detailedHint in
  if isEmpty detailedHint && (includes message (u "фио") || includes message (u "фамилия"))
  then whereAll else detailedHint.

(** The location branch of the export. *)
Definition locationDetailedHint (loc : str) : str :=
  if str_eqb loc (u "title_page") then
    u "МЕСТОПОЛОЖЕНИЕ: Титульная страница (первая страница документа)" ++ nl
  else if str_eqb loc (u "calendar_plan_table") then
    u "МЕСТОПОЛОЖЕНИЕ: Таблица календарного плана" ++ nl
  else if includes loc (u "page:") then
    u "МЕСТОПОЛОЖЕНИЕ: Страница " ++ pageNum loc ++ nl
  else if str_eqb loc (u "document") then
    u "МЕСТОПОЛОЖЕНИЕ: Основной текст документа" ++ nl
  else [].

(** [detailedHint] after the family branches, before context, fix and rule. *)
Definition familyHint (issue : Issue) : str :=
  if isFIO issue then fioDetailedHint (orElse (message issue) [])
  else
    match location issue with
    | val (c :: r) => locationDetailedHint (c :: r)
    | _ => []
    end.

(** [detailedHint] as it stands before it is indented into the report. *)
Definition detailedHint (issue : Issue) : str :=
  let d := familyHint issue in
  let d :=
    if shownEvidence (evidence issue)
    then d ++ u "КОНТЕКСТ: " ++ orElse (evidence issue) [] ++ nl else d in
  let d :=
    if truthy (how_to_fix issue)
    then d ++ u "КАК ИСПРАВИТЬ: " ++ orElse (how_to_fix issue) [] ++ nl else d in
  if truthy (rule issue)
  then d ++ u "ПРАВИЛО: " ++ orElse (rule issue) [] ++ nl else d.

Definition issueEntry (issue : Issue) (i : nat) : str :=
  let sev := orElse (severity issue) (u "info") in
  ofNat (i + 1) ++ u ". [" ++ toUpperCase (sevLabel sev) ++ u "] "
  ++ orElse (message issue) (u "Нарушение") ++ nl
  ++ (let d := detailedHint issue in
      if isEmpty d then []
      else u "   " ++ replaceNewlines (nl ++ u "   ") d)
  ++ nl.

Definition issuesHeading : str :=
  u "ПОДРОБНЫЙ СПИСОК НАРУШЕНИЙ:" ++ nl ++ rule40 ++ nl ++ nl.

Definition issuesSection (l : list Issue) : str :=
  match l with
  | [] => []
  | _ => issuesHeading ++ List.concat (mapi issueEntry l)
  end.

Definition commentsHeading : str :=
  nl ++ rule60 ++ nl ++ nl
  ++ u "КОММЕНТАРИИ К ПРОВЕРКЕ:" ++ nl ++ rule40 ++ nl ++ nl.

Definition commentsSection (cs : list Comment) : str :=
  match cs with
  | [] => []
  | _ =>
      commentsHeading
      ++ List.concat
           (mapi (fun comment i =>
                    u "КОММЕНТАРИЙ #" ++ ofNat (i + 1) ++ u " (" ++ timestamp comment
                    ++ u "):" ++ nl ++ text comment ++ nl ++ nl)
                 cs)
  end.

Definition checklistHeading : str :=
  nl ++ rule60 ++ nl ++ nl
  ++ u "ЧЕК-ЛИСТ ДЛЯ ИСПРАВЛЕНИЯ:" ++ nl ++ rule40 ++ nl ++ nl.

Definition checklistSection (l : list Issue) : str :=
  checklistHeading
  ++ List.concat
       (mapi (fun issue i =>
                u "[ ] " ++ ofNat (i + 1) ++ u ". " ++ show (message issue) ++ nl)
             l).

Definition footer : str :=
  nl ++ nl ++ u "ИНСТРУКЦИЯ:" ++ nl
  ++ u "1. Откройте документ в Microsoft Word или другом редакторе" ++ nl
  ++ u "2. Исправьте ошибки согласно списку выше" ++ nl
  ++ u "3. Отметьте галочкой исправленные пункты" ++ nl
  ++ u "4. Перепроверьте документ через VerifyFlow" ++ nl
  ++ u "5. Сохраните исправленную версию" ++ nl.

(** The text of the downloaded file; [None] is the alert and early return
    when no report has been rendered yet. *)
Definition downloadReportWithComments (env : Env) (st : Session) : option str :=
  match lastReport st with
  | None => None
  | Some report =>
      let l := issuesOf report in
      Some (header env st report
            ++ summarySection report
            ++ distributionSection l
            ++ issuesSection l
            ++ commentsSection (comments st)
            ++ checklistSection l
            ++ footer)
  end.

End Download.

(* ===================================================================== *)
(** ** Vocabulary of the properties *)
(* ===================================================================== *)

(** The allowed set in the words of the specification: letters (Latin and
    Russian), digits, space, period, hyphen and slash. *)
Definition specAllowed (c : N) : bool :=
  Regex.between 97 122 c || Regex.between 65 90 c
  || Regex.between 1072 1103 c || Regex.between 1040 1071 c
  || (c =? 1105) || (c =? 1025)
  || Regex.between 48 57 c || (c =? 32) || (c =? 46) || (c =? 45) || (c =? 47).

Definition FilterState (f : str) : Prop :=
  f = u "all" \/ f = u "critical" \/ f = u "warning" \/ f = u "info".

(** The severity of the data model: one of the three values, when present. *)
Definition severityInModel (it : Issue) : Prop :=
  match severity it with
  | val s => s = u "critical" \/ s = u "warning" \/ s = u "info"
  | _ => True
  end.

(** "The severity of the issue equals the state." *)
Definition severityIs (f : str) (it : Issue) : bool :=
  match severity it with
  | val s => str_eqb s f
  | _ => false
  end.

(** "The severity of the issue, put in lower case, equals the state." *)
Definition severityIsLower (f : str) (it : Issue) : bool :=
  match severity it with
  | val s => str_eqb (toLowerCase s) f
  | _ => false
  end.

(** Clicks on filter chips, one after the other, starting from a rendered
    page (a click that finds no stored report leaves the page as it is). *)
Fixpoint clickFilters (fs : list str) (p : Full.Session * Full.View)
  : Full.Session * Full.View :=
  match fs with
  | [] => p
  | f :: rest =>
      match Full.clickFilter f (fst p) with
      | Some p' => clickFilters rest p'
      | None => p
      end
  end.

Fixpoint clickFiltersReduced (fs : list str) (p : Reduced.Session * Reduced.View)
  : Reduced.Session * Reduced.View :=
  match fs with
  | [] => p
  | f :: rest =>
      match Reduced.clickFilter f (fst p) with
      | Some p' => clickFiltersReduced rest p'
      | None => p
      end
  end.

(** The count stored under a label (0 when the label is not a key). *)
Fixpoint countOf (k : str) (m : list (str * nat)) : nat :=
  match m with
  | [] => 0
  | (k', n) :: r => if str_eqb k k' then n else countOf k r
  end.

(** The issue is given the label [k]. *)
Definition labelled (k : str) (issue : Issue) : bool :=
  match Buckets.locationName issue with
  | Some k' => str_eqb k k'
  | None => false
  end.

Definition contains (m k : str) : Prop := exists pre post, m = pre ++ k ++ post.

(** The text inside the badge; the empty badge has none. *)
Definition badgeText (b : Full.LocationBadge) : str :=
  match b with
  | Full.BadgeNone => []
  | Full.BadgeFIO hint => hint
  | Full.BadgeOrderNumber hint => hint
  | Full.BadgeLocation _ locationText => locationText
  end.

Inductive Family : Type :=
| NameFormat
| OrderNumber
| GenericLocation.

(** The family whose template renderReport filled for the issue. *)
Definition familyOf (b : Full.LocationBadge) : option Family :=
  match b with
  | Full.BadgeNone => None
  | Full.BadgeFIO _ => Some NameFormat
  | Full.BadgeOrderNumber _ => Some OrderNumber
  | Full.BadgeLocation _ _ => Some GenericLocation
  end.

Definition selectedFamily (it : Issue) : option Family :=
  familyOf (Full.locationBadge it).

Definition nameKeywords : list str :=
  [u "ФИО"; u "фио"; u "Фамилия"; u "студент"; u "руководитель"; u "падеж";
   u "сокращени"].

Definition orderKeywords : list str :=
  [u "номер приказа"; u "приказ"; u "распоряжение"].

(** The conditions of the sub-rules, on the lower-cased message. *)
Definition notFoundRule (lm : str) : bool := includes lm (u "не найдено").
Definition studentRule (lm : str) : bool :=
  notFoundRule lm && (includes lm (u "обучающегося") || includes lm (u "студент")).
Definition supervisorRule (lm : str) : bool :=
  notFoundRule lm && (includes lm (u "руководителя") || includes lm (u "руководитель")).
Definition abbreviationRule (lm : str) : bool :=
  includes lm (u "сокращения") || includes lm (u "и.о.") || includes lm (u "и. о.").
Definition caseRule (lm : str) : bool :=
  includes lm (u "падеж") || includes lm (u "падеже").
Definition nameRule (lm : str) : bool :=
  includes lm (u "фио") || includes lm (u "фамилия").

(** Does the exported text contain [part]? ([false] when nothing is exported) *)
Definition exportContains (env : Download.Env) (st : Full.Session) (part : str) : bool :=
  match Download.downloadReportWithComments env st with
  | Some doc => includes doc part
  | None => false
  end.

(* ===================================================================== *)
(** ** Sample reports and issues *)
(* ===================================================================== *)

Definition warningIssue : Issue :=
  {| message := val (u "Поля страницы"); severity := val (u "warning");
     location := val (u "document"); rule := undefined; evidence := undefined;
     how_to_fix := undefined |}.

Definition shoutIssue : Issue :=
  {| message := val (u "Нет подписи"); severity := val (u "CRITICAL");
     location := val (u "title_page"); rule := undefined; evidence := undefined;
     how_to_fix := undefined |}.

Definition infoIssue : Issue :=
  {| message := val (u "Шрифт"); severity := val (u "info");
     location := undefined; rule := undefined; evidence := undefined;
     how_to_fix := undefined |}.

Definition summaryWithoutTotal : Summary :=
  {| critical := val 0%Z; warning := val 1%Z; info := val 1%Z; total := undefined |}.

Definition reportWithoutSummary : Report :=
  {| profile := val (u "default"); summary := None; issues := Some [warningIssue] |}.

Definition reportWithoutTotal : Report :=
  {| profile := undefined; summary := Some summaryWithoutTotal;
     issues := Some [warningIssue; infoIssue] |}.

Definition noSeverityIssue : Issue :=
  {| message := val (u "Нет подписи"); severity := undefined;
     location := val (u "title_page"); rule := undefined; evidence := undefined;
     how_to_fix := undefined |}.

Definition surnameIssue : Issue :=
  {| message := val (u "Фамилия не найдена"); severity := val (u "critical");
     location := val (u "page:3"); rule := undefined; evidence := undefined;
     how_to_fix := undefined |}.

Definition fioPageIssue : Issue :=
  {| message := val (u "ФИО студента не найдено"); severity := val (u "critical");
     location := val (u "page:3"); rule := undefined; evidence := undefined;
     how_to_fix := undefined |}.

Definition bareIssue : Issue :=
  {| message := val (u "Поля страницы"); severity := val (u "warning");
     location := undefined; rule := undefined; evidence := undefined;
     how_to_fix := undefined |}.

Definition studentLower : Issue :=
  {| message := val (u "студент не найден"); severity := val (u "critical");
     location := val (u "title_page"); rule := undefined; evidence := undefined;
     how_to_fix := undefined |}.

Definition studentUpper : Issue :=
  {| message := val (u "СТУДЕНТ НЕ НАЙДЕН"); severity := val (u "critical");
     location := val (u "title_page"); rule := undefined; evidence := undefined;
     how_to_fix := undefined |}.

Definition orderIssue : Issue :=
  {| message := val (u "Не найден номер приказа"); severity := val (u "warning");
     location := val (u "document"); rule := undefined; evidence := undefined;
     how_to_fix := undefined |}.

Definition twoRulesMessage : str := u "ФИО студента не найдено, неверный падеж".

Definition twoRulesIssue : Issue :=
  {| message := val twoRulesMessage; severity := val (u "critical");
     location := val (u "title_page"); rule := undefined; evidence := undefined;
     how_to_fix := undefined |}.

Definition emptyReport : Report :=
  {| profile := val (u "ГОСТ"); summary := None; issues := Some [] |}.

Definition sampleEnv : Download.Env :=
  {| Download.now := u "02.11.2026, 10:00:00"; Download.orderNumberInput := None |}.

Definition emptySession : Full.Session :=
  {| Full.chosen := Some (u "diploma.docx"); Full.lastReport := Some emptyReport;
     Full.comments := []; Full.currentFilter := u "all" |}.

Definition oneIssueSession : Full.Session :=
  {| Full.chosen := Some (u "diploma.docx");
     Full.lastReport :=
       Some {| profile := val (u "ГОСТ"); summary := None;
               issues := Some [warningIssue] |};
     Full.comments := []; Full.currentFilter := u "all" |}.

(* ===================================================================== *)
(** ** The rest of the script: comments, validation card, file name *)
(* ===================================================================== *)

(** [s.endsWith(suffix)] *)
Definition endsWith (s suffix : str) : bool := startsWith (rev s) (rev suffix).

(** [name.replace(/\.[^/.]+$/, "")]: the leftmost dot that is followed, up to
    the end, by one or more units other than slash and dot, is cut off with
    what follows it. *)
Fixpoint stripExtension (name : str) : str :=
  match name with
  | [] => []
  | c :: r =>
      if (c =? 46) && negb (match r with [] => true | _ => false end)
         && forallb (fun d => negb ((d =? 47) || (d =? 46))) r
      then []
      else c :: stripExtension r
  end.

(** The name of the downloaded file; [date] is
    [new Date().toISOString().split('T')[0]]. *)
Definition fileName (date : str) (st : Full.Session) : str :=
  u "verifyflow_отчет_"
  ++ match Full.chosen st with
     | Some name => stripExtension name
     | None => u "документ"
     end
  ++ u "_" ++ date ++ u ".txt".

(** addComment: [value] is the content of the text area, [now] the printed
    clock. A blank text is refused (alert), anything else is pushed. *)
Definition addComment (value now : str) (st : Full.Session) : Full.Session :=
  match trim value with
  | [] => st
  | c :: r =>
      {| Full.chosen := Full.chosen st; Full.lastReport := Full.lastReport st;
         Full.comments := Full.comments st ++ [{| text := c :: r; timestamp := now |}];
         Full.currentFilter := Full.currentFilter st |}
  end.

(** The comment list, without its markup: the fixed note, or one item
    (number, timestamp, escaped text) per comment. *)
Inductive CommentsList : Type :=
| NoComments
| CommentItems (items : list (nat * str * str)).

Definition renderComments (cs : list Comment) : CommentsList :=
  match cs with
  | [] => NoComments
  | _ => CommentItems (mapi (fun comment index =>
                               ((index + 1)%nat, timestamp comment, esc (text comment)))
                            cs)
  end.

(** displayValidationResults, without its markup: the "passed" card, or one
    card per error followed by one card per warning (rule, message, fix). *)
Inductive ValidationCard : Type :=
| PassedCard
| ErrorCard (rl msg how : str)
| WarningCard (rl msg how : str).

Definition displayValidationResults (validation : Validation) : list ValidationCard :=
  match errors validation, warnings validation with
  | [], [] => [PassedCard]
  | es, ws =>
      map (fun e => ErrorCard (show (rule e)) (show (message e)) (show (how_to_fix e))) es
      ++ map (fun w => WarningCard (show (rule w)) (show (message w)) (show (how_to_fix w))) ws
  end.

(* ===================================================================== *)
(** ** The page and its event handlers (web/script.js) *)
(* ===================================================================== *)

Module Page.

Import Full.

Record File : Type := mkFile {
  name : str;
  size : N
}.

(** What [reportArea] shows. *)
Inductive Area : Type :=
| AreaEmpty (escaped : str)
| AreaLoading
| AreaReport (v : View) (cl : CommentsList).

(** The ambient variables together with the parts of the page the handlers
    write: the two buttons, the file line and the report area. *)
Record Ui : Type := mkUi {
  session : Session;
  runDisabled : bool;
  clearDisabled : bool;
  meta : str;
  area : Area
}.

Definition renderEmpty (message : str) : Area := AreaEmpty (esc message).

Definition withSession (st : Session) (a : Area) (ui : Ui) : Ui :=
  {| session := st; runDisabled := runDisabled ui;
     clearDisabled := clearDisabled ui; meta := meta ui; area := a |}.

Definition resetUI (ui : Ui) : Ui :=
  {| session := Full.resetUI (session ui);
     runDisabled := true;
     clearDisabled := true;
     meta := u "Файл не выбран.";
     area := renderEmpty (u "Загрузите документ и нажмите " ++ [34] ++ u "Проверить"
                          ++ [34] ++ u ".") |}.

(** [Math.round(f.size / 1024)] for a size in bytes *)
Definition roundKB (bytes : N) : N := (bytes + 512) / 1024.

(** The change handler of the file input; [None] is an empty selection. *)
Definition fileChange (f : option File) (ui : Ui) : Ui :=
  match f with
  | None => ui
  | Some f =>
      let ext := toLowerCase (name f) in
      let st := session ui in
      if negb (endsWith ext (u ".docx")) && negb (endsWith ext (u ".pdf")) then
        {| session := {| chosen := None; lastReport := lastReport st;
                         comments := comments st;
                         currentFilter := currentFilter st |};
           runDisabled := true;
           clearDisabled := false;
           meta := u "Выберите файл .docx или .pdf.";
           area := renderEmpty (u "Неверный формат. Поддерживаются .docx и .pdf.") |}
      else
        {| session := {| chosen := Some (name f); lastReport := lastReport st;
                         comments := comments st;
                         currentFilter := currentFilter st |};
           runDisabled := false;
           clearDisabled := false;
           meta := u "Выбран файл: " ++ name f ++ u " ("
                   ++ ofZ (Z.of_N (roundKB (size f))) ++ u " KB)";
           area := renderEmpty (u "Файл готов к проверке. Нажмите " ++ [34]
                                ++ u "Проверить" ++ [34] ++ u ".") |}
  end.

(** The click handler of the run button up to its [await]: nothing without a
    chosen file, otherwise both buttons are disabled and the request leaves. *)
Definition runClick (ui : Ui) : Ui :=
  match chosen (session ui) with
  | None => ui
  | Some _ =>
      {| session := session ui; runDisabled := true; clearDisabled := true;
         meta := meta ui; area := AreaLoading |}
  end.

(** The file a click on the run button sends, if any. *)
Definition requestOf (ui : Ui) : option str :=
  if runDisabled ui then None else chosen (session ui).

(** How the request ends. Something threw ([fetch], [res.text()] or
    [JSON.parse]; [e] is the printed exception); or the status was not ok; or
    the body was parsed. A parsed body is [null], or a falsy primitive (0,
    false, the empty string), or anything else: an object, read as a report,
    or a truthy primitive or an array, which read as an object without the
    properties of a report. Issues are taken to be objects with string
    properties, as everywhere in this file. *)
Inductive FetchResult : Type :=
| Rejected (e : str)
| NotOk (status : nat) (body : str)
| Parsed (report : Report)
| ParsedFalsy
| ParsedNull (e : str).

(** What renderReport reads from a primitive: every property is missing. *)
Definition bareObject : Report :=
  {| profile := undefined; summary := None; issues := None |}.

(** The report that renderReport draws for the stored value: the stored
    report, or the object without properties when the stored value is a
    falsy primitive. *)
Definition shownReport (st : Session) : Report :=
  match lastReport st with
  | Some report => report
  | None => bareObject
  end.

(** renderReport on a falsy primitive: the page of an object without
    properties, while [lastReport] holds the falsy value. *)
Definition renderFalsy (st : Session) : Session * View :=
  let (st', v) := renderReport bareObject st in
  ({| chosen := chosen st'; lastReport := None; comments := comments st';
      currentFilter := currentFilter st' |}, v).

(** The run handler after its [await], with the [finally] block. On a [null]
    body renderReport clears [lastReport] and then throws on
    [report.summary] ([e] is the printed TypeError), which the [catch]
    reports. *)
Definition runSettled (r : FetchResult) (ui : Ui) : Ui :=
  let ui1 :=
    match r with
    | NotOk status body =>
        withSession (session ui)
          (renderEmpty (u "Ошибка " ++ ofNat status ++ u ": " ++ body)) ui
    | Parsed report =>
        let (st', v) := renderReport report (session ui) in
        withSession st' (AreaReport v (renderComments (comments st'))) ui
    | ParsedFalsy =>
        let (st', v) := renderFalsy (session ui) in
        withSession st' (AreaReport v (renderComments (comments st'))) ui
    | ParsedNull e =>
        withSession
          {| chosen := chosen (session ui); lastReport := None;
             comments := comments (session ui);
             currentFilter := currentFilter (session ui) |}
          (renderEmpty (u "Ошибка соединения: " ++ e)) ui
    | Rejected e =>
        withSession (session ui) (renderEmpty (u "Ошибка соединения: " ++ e)) ui
    end in
  {| session := session ui1; runDisabled := false; clearDisabled := false;
     meta := meta ui1; area := area ui1 |}.

(** The four filter chips and their [data-filter] attributes. *)
Inductive Chip : Type := ChipAll | ChipCritical | ChipWarning | ChipInfo.

Definition dataFilter (c : Chip) : str :=
  match c with
  | ChipAll => u "all"
  | ChipCritical => u "critical"
  | ChipWarning => u "warning"
  | ChipInfo => u "info"
  end.

(** A click on a chip: [renderReport(lastReport)] under the new filter. The
    chips exist only while a report is shown; a falsy [lastReport] is then a
    falsy primitive, which is drawn again as it was the first time. *)
Definition filterClick (c : Chip) (ui : Ui) : Ui :=
  match area ui with
  | AreaReport _ _ =>
      match clickFilter (dataFilter c) (session ui) with
      | Some (st', v) =>
          withSession st' (AreaReport v (renderComments (comments st'))) ui
      | None =>
          let (st', v) :=
            renderFalsy {| chosen := chosen (session ui); lastReport := None;
                           comments := comments (session ui);
                           currentFilter := dataFilter c |} in
          withSession st' (AreaReport v (renderComments (comments st'))) ui
      end
  | _ => ui
  end.

(** A click on the add button (or Ctrl+Enter); the form exists only while a
    report is shown. The list is drawn again after a push. *)
Definition commentClick (value now : str) (ui : Ui) : Ui :=
  match area ui with
  | AreaReport v _ =>
      let st' := addComment value now (session ui) in
      withSession st' (AreaReport v (renderComments (comments st'))) ui
  | _ => ui
  end.

(** A click on the clear button, which a disabled button does not deliver. *)
Definition clearClick (ui : Ui) : Ui :=
  if clearDisabled ui then ui else resetUI ui.

Inductive Event : Type :=
| ClearClick
| FileChange (f : option File)
| RunClick
| RunSettled (r : FetchResult)
| FilterClick (c : Chip)
| CommentClick (value now : str).

(** One event. The model does not record which requests are outstanding: a
    settled request is handled whenever it is delivered. *)
Definition step (ui : Ui) (e : Event) : Ui :=
  match e with
  | ClearClick => clearClick ui
  | FileChange f => fileChange f ui
  | RunClick => if runDisabled ui then ui else runClick ui
  | RunSettled r => runSettled r ui
  | FilterClick c => filterClick c ui
  | CommentClick value now => commentClick value now ui
  end.

(** The variables as they are declared, before the script calls resetUI. *)
Definition declared : Ui :=
  {| session := {| chosen := None; lastReport := None; comments := [];
                   currentFilter := u "all" |};
     runDisabled := false; clearDisabled := false; meta := []; area := AreaEmpty [] |}.

(** The page after the script was loaded and the events arrived in order. *)
Definition run (events : list Event) : Ui := fold_left step events (resetUI declared).

End Page.

(* ===================================================================== *)
(** ** Vocabulary of the further properties *)
(* ===================================================================== *)

(** The file name passes the extension gate of the file input. *)
Definition accepted (name : str) : bool :=
  endsWith (toLowerCase name) (u ".docx") || endsWith (toLowerCase name) (u ".pdf").

(** A stored comment is what addComment lets in: trimmed and not empty. *)
Definition commentOk (c : Comment) : Prop := text c <> [] /\ trim (text c) = text c.

(** The property names an object literal inherits from [Object.prototype];
    the bucket map of the model is faithful for every other label. *)
Definition inheritedNames : list str :=
  [u "constructor"; u "__proto__"; u "hasOwnProperty"; u "isPrototypeOf";
   u "propertyIsEnumerable"; u "toLocaleString"; u "toString"; u "valueOf";
   u "__defineGetter__"; u "__defineSetter__"; u "__lookupGetter__";
   u "__lookupSetter__"].

Definition plainLabel (issue : Issue) : Prop :=
  match Buckets.locationName issue with
  | Some k => existsb (str_eqb k) inheritedNames = false
  | None => True
  end.

(** What the reduced script keeps of a card, a page and a session. *)
Definition forgetCard (c : Full.IssueCard) : Reduced.IssueCard :=
  {| Reduced.cardIndex := Full.cardIndex c; Reduced.cardDot := Full.cardDot c;
     Reduced.cardLabel := Full.cardLabel c; Reduced.cardRule := Full.cardRule c;
     Reduced.cardMessage := Full.cardMessage c; Reduced.cardHow := Full.cardHow c |}.

Definition forgetArea (a : Full.IssuesArea) : Reduced.IssuesArea :=
  match a with
  | Full.NoIssues => Reduced.NoIssues
  | Full.NothingForFilter label => Reduced.NothingForFilter label
  | Full.Cards cards => Reduced.Cards (map forgetCard cards)
  end.

Definition forgetView (v : Full.View) : Reduced.View :=
  {| Reduced.viewProfile := Full.viewProfile v; Reduced.viewTotal := Full.viewTotal v;
     Reduced.viewCritical := Full.viewCritical v;
     Reduced.viewWarning := Full.viewWarning v; Reduced.viewInfo := Full.viewInfo v;
     Reduced.viewShown := Full.viewShown v; Reduced.viewOutOf := Full.viewOutOf v;
     Reduced.viewIssues := forgetArea (Full.viewIssues v) |}.

Definition forgetSession (st : Full.Session) : Reduced.Session :=
  {| Reduced.chosen := Full.chosen st; Reduced.lastReport := Full.lastReport st;
     Reduced.currentFilter := Full.currentFilter st |}.

(** Every character class of the expression lies inside [P]. *)
Fixpoint classesWithin (P : N -> bool) (r : Regex.re) : Prop :=
  match r with
  | Regex.Cls p => forall c, p c = true -> P c = true
  | Regex.Seq a b => classesWithin P a /\ classesWithin P b
  | Regex.Alt a b => classesWithin P a /\ classesWithin P b
  | Regex.Star a => classesWithin P a
  | _ => True
  end.

(** A lower bound on the length of the strings the expression matches. *)
Fixpoint minLength (r : Regex.re) : nat :=
  match r with
  | Regex.Cls _ => 1
  | Regex.Seq a b => minLength a + minLength b
  | Regex.Alt a b => Nat.min (minLength a) (minLength b)
  | _ => 0
  end.

(** All the issues a validation carries. *)
Definition validationIssues (v : Validation) : list Issue := errors v ++ warnings v.

Definition sumCounts (m : list (str * nat)) : nat :=
  fold_right (fun kn acc => (snd kn + acc)%nat) 0%nat m.

Definition located (issue : Issue) : bool := truthy (location issue).

(** One turn of the loop that counts the buckets. *)
Definition bucketStep (m : list (str * nat)) (issue : Issue) : list (str * nat) :=
  match Buckets.locationName issue with
  | Some k => Buckets.bump k m
  | None => m
  end.

(** A report's issues used to try the properties: two on page 3 (one of them
    about the full name), one in the main body, one without a location. *)
Definition sampleIssues : list Issue :=
  [fioPageIssue; surnameIssue; warningIssue; infoIssue].

(** What every state of the page satisfies (see the invariant below): the
    chosen file passed the extension gate, the stored comments are trimmed
    and not empty, the filter is one of the four chips, and a report on
    display is the rendering, under the current filter, of the stored report
    (of an object without properties when the stored value is falsy), with
    the comment list showing the stored comments. *)
Definition pageInvariant (ui : Page.Ui) : Prop :=
  let st := Page.session ui in
  (forall name, Full.chosen st = Some name -> accepted name = true)
  /\ Forall commentOk (Full.comments st)
  /\ FilterState (Full.currentFilter st)
  /\ (forall v cl, Page.area ui = Page.AreaReport v cl ->
        v = snd (Full.renderReport (Page.shownReport st) st)
        /\ cl = renderComments (Full.comments st)).

(** The events after which the page is looked at in the examples: a file is
    chosen, the run button is clicked, the report arrives, a comment is
    added and the "critical" chip is clicked. *)
Definition sampleEvents : list Page.Event :=
  [Page.FileChange (Some {| Page.name := u "Диплом.DOCX"; Page.size := 20480 |});
   Page.RunClick;
   Page.RunSettled (Page.Parsed reportWithoutTotal);
   Page.CommentClick (u "  проверить титул ") (u "02.11.2026, 10:05");
   Page.FilterClick Page.ChipCritical].

(** A unit that the class [[^/.]] matches. *)
Definition plainUnit (d : N) : bool := negb ((d =? 47) || (d =? 46)).

(* ===================================================================== *)
(** * Properties *)
(* ===================================================================== *)

(** Closed goals, conjunct by conjunct, by evaluation. *)
Ltac compute_each :=
  repeat match goal with |- _ /\ _ => split end; vm_compute; reflexivity.

(** ** Evaluation of the model on the examples of the specification *)

Example u_cyrillic : u "ФИО" = [1060; 1048; 1054].
Proof. reflexivity. Qed.

Example u_astral : u "👤" = [55357; 56420].
Proof. reflexivity. Qed.

Example lower_cyrillic : toLowerCase (u "ФИО Студента x-Y") = u "фио студента x-y".
Proof. reflexivity. Qed.

Example trim_ex : trim (u "  12/24 	") = u "12/24".
Proof. reflexivity. Qed.

Example split_ex : split 58 (u "a:page:3") = [u "a"; u "page"; u "3"].
Proof. reflexivity. Qed.

Example ofZ_ex : ofZ 0 = u "0" /\ ofZ (-12) = u "-12" /\ ofNat 305 = u "305".
Proof. repeat split; reflexivity. Qed.

Example validate_empty :
  validateOrderNumber (u "") = mkValidation true [] [missingWarning].
Proof. reflexivity. Qed.

Example validate_ab :
  validateOrderNumber (u "ab") = mkValidation false [tooShortError] [formatWarning].
Proof. vm_compute. reflexivity. Qed.

Example validate_123_2024 :
  validateOrderNumber (u "123/2024") = mkValidation true [] [].
Proof. vm_compute. reflexivity. Qed.

Example validate_hash :
  validateOrderNumber (u "12#34/2024")
  = mkValidation false [invalidCharsError] [formatWarning].
Proof. vm_compute. reflexivity. Qed.

Example validate_range :
  validateOrderNumber (u " 33.02-05/334-2024 ") = mkValidation true [] [].
Proof. vm_compute. reflexivity. Qed.

Example validate_five_digits :
  warnings (validateOrderNumber (u "1/20245")) = [formatWarning].
Proof. vm_compute. reflexivity. Qed.

(** The two scenarios of the specification. *)

Example scenario_student_not_found :
  let it := {| message := val (u "ФИО студента не найдено");
               severity := val (u "critical"); location := val (u "title_page");
               rule := undefined; evidence := undefined; how_to_fix := undefined |} in
  Buckets.locationName it = Some (u "Ошибки ФИО")
  /\ Full.locationBadge it = Full.BadgeFIO Hints.fioStudent
  /\ Download.detailedHint it = Download.whereStudent.
Proof. cbv zeta. compute_each. Qed.

Example scenario_filter_critical :
  let report := {| profile := undefined; summary := None;
                   issues := Some [warningIssue; infoIssue] |} in
  let st := {| Full.chosen := None; Full.lastReport := None;
               Full.comments := []; Full.currentFilter := u "critical" |} in
  let v := snd (Full.renderReport report st) in
  Full.viewShown v = 0%nat /\ Full.viewOutOf v = 2%nat
  /\ Full.viewIssues v = Full.NothingForFilter (u "Критичные").
Proof. cbv zeta. compute_each. Qed.

(** ** Strings *)

Lemma str_eqb_eq (a b : str) : str_eqb a b = true <-> a = b.
Proof.
  unfold str_eqb. destruct (list_eq_dec N.eq_dec a b); split; congruence.
Qed.

Lemma str_eqb_neq (a b : str) : str_eqb a b = false <-> a <> b.
Proof.
  unfold str_eqb. destruct (list_eq_dec N.eq_dec a b); split; congruence.
Qed.

Lemma str_eqb_refl (a : str) : str_eqb a a = true.
Proof. now apply str_eqb_eq. Qed.

Lemma startsWith_spec (s p : str) :
  startsWith s p = true <-> exists rest, s = p ++ rest.
Proof.
  revert s. induction p as [|a p IH]; intros s; simpl.
  - split; [intros _; now exists s | reflexivity].
  - destruct s as [|b s].
    + split; [discriminate | intros [rest H]; discriminate].
    + rewrite andb_true_iff, N.eqb_eq, IH. split.
      * intros [-> [rest ->]]. now exists rest.
      * intros [rest H]. injection H as -> ->. split; [reflexivity | now exists rest].
Qed.

(** [includes] is substring search. *)
Lemma includes_spec (s sub : str) :
  includes s sub = true <-> exists pre post, s = pre ++ sub ++ post.
Proof.
  induction s as [|c s IH].
  - cbn [includes]. rewrite orb_false_r, startsWith_spec. split.
    + intros [rest H]. now exists [], rest.
    + intros [pre [post H]]. destruct pre; [now exists post | discriminate].
  - cbn [includes]. rewrite orb_true_iff, startsWith_spec, IH. split.
    + intros [[rest H] | [pre [post H]]].
      * now exists [], rest.
      * exists (c :: pre), post. now rewrite H.
    + intros [pre [post H]]. destruct pre as [|d pre].
      * left. now exists post.
      * right. injection H as _ H. now exists pre, post.
Qed.

Lemma trimStart_blank (s : str) : forallb isWhiteSpace s = true -> trimStart s = [].
Proof.
  induction s as [|c s IH]; [reflexivity|]. cbn [forallb trimStart].
  intros H. apply andb_true_iff in H as [Hc Hs]. now rewrite Hc, IH.
Qed.

Lemma trim_blank (s : str) : forallb isWhiteSpace s = true -> trim s = [].
Proof.
  intros H. unfold trim. now rewrite trimStart_blank.
Qed.

Lemma existsb_oneOf (set s : str) :
  existsb (Regex.oneOf set) s = true <-> exists c, In c s /\ In c set.
Proof.
  rewrite existsb_exists. split; intros [c [Hc H]]; exists c; split; trivial.
  - unfold Regex.oneOf in H. apply existsb_exists in H as [d [Hd E]].
    apply N.eqb_eq in E. now subst.
  - unfold Regex.oneOf. apply existsb_exists. exists c. split; trivial.
    apply N.eqb_refl.
Qed.

(** ** The derivative matcher *)

Section RegexFacts.

Import Regex.

Lemma nullable_spec (r : re) : nullable r = true <-> matches r [].
Proof.
  induction r as [| | p | a IHa b IHb | a IHa b IHb | a IHa]; cbn [nullable].
  - split; [discriminate | intros H; inversion H].
  - split; [intros _; constructor | reflexivity].
  - split; [discriminate | intros H; inversion H].
  - rewrite andb_true_iff, IHa, IHb. split.
    + intros [Ha Hb]. change (@nil N) with (@nil N ++ []). now constructor.
    + intros H. inversion H as [| |a' b' s t Ha Hb E1 E2| | | |]. subst.
      apply app_eq_nil in E2 as [-> ->]. now split.
  - rewrite orb_true_iff, IHa, IHb. split.
    + intros [H | H]; [now apply MAltL | now apply MAltR].
    + intros H. inversion H; subst; tauto.
  - split; [intros _; constructor | reflexivity].
Qed.

(** A non-empty match of a star starts with a non-empty match of its body. *)
Lemma star_cons (a : re) (s : str) :
  matches (Star a) s ->
  forall c s', s = c :: s' ->
  exists s1 s2, s' = s1 ++ s2 /\ matches a (c :: s1) /\ matches (Star a) s2.
Proof.
  intros H. remember (Star a) as r eqn:Er.
  induction H as [| | | | | a0 | a0 s t Hs _ Ht IHt]; try discriminate Er.
  - intros c s' E. discriminate E.
  - injection Er as ->. intros c s' E.
    destruct s as [|d s1].
    + cbn in E. now apply IHt.
    + cbn in E. injection E as -> <-. now exists s1, t.
Qed.

Lemma deriv_spec (c : N) (r : re) (s : str) :
  matches (deriv c r) s <-> matches r (c :: s).
Proof.
  revert s.
  induction r as [| | p | a IHa b IHb | a IHa b IHb | a IHa]; intros s;
    cbn [deriv].
  - split; intros H; inversion H.
  - split; intros H; inversion H.
  - destruct (p c) eqn:E; split; intros H.
    + inversion H; subst. now constructor.
    + inversion H; subst. constructor.
    + inversion H.
    + inversion H; subst. congruence.
  - assert (L : matches (Seq (deriv c a) b) s
                <-> exists s1 s2, s = s1 ++ s2 /\ matches a (c :: s1) /\ matches b s2).
    { split.
      - intros H. inversion H as [| |a' b' s1 s2 H1 H2 E1 E2| | | |]. subst.
        exists s1, s2. split; trivial. split; trivial. now apply IHa.
      - intros [s1 [s2 [-> [H1 H2]]]]. constructor; trivial. now apply IHa. }
    assert (R : matches (Seq a b) (c :: s)
                <-> (exists s1 s2, s = s1 ++ s2 /\ matches a (c :: s1) /\ matches b s2)
                    \/ (matches a [] /\ matches b (c :: s))).
    { split.
      - intros H. inversion H as [| |a' b' s1 s2 H1 H2 E1 E2| | | |]. subst.
        destruct s1 as [|d s1].
        + right. cbn in E2. subst. now split.
        + left. cbn in E2. injection E2 as -> <-. now exists s1, s2.
      - intros [[s1 [s2 [-> [H1 H2]]]] | [H1 H2]].
        + change (c :: s1 ++ s2) with ((c :: s1) ++ s2). now constructor.
        + change (c :: s) with ([] ++ c :: s). now constructor. }
    rewrite R. destruct (nullable a) eqn:Na.
    + split.
      * intros H. inversion H; subst.
        -- left. now apply L.
        -- right. split; [now apply nullable_spec | now apply IHb].
      * intros [H | [_ H]].
        -- apply MAltL. now apply L.
        -- apply MAltR. now apply IHb.
    + rewrite L. split; [now left|]. intros [H | [H _]]; trivial.
      apply nullable_spec in H. congruence.
  - split; intros H; inversion H; subst.
    + apply MAltL. now apply IHa.
    + apply MAltR. now apply IHb.
    + apply MAltL. now apply IHa.
    + apply MAltR. now apply IHb.
  - split.
    + intros H. inversion H as [| |a' b' s1 s2 H1 H2 E1 E2| | | |]. subst.
      change (c :: s1 ++ s2) with ((c :: s1) ++ s2). constructor; trivial.
      now apply IHa.
    + intros H. destruct (star_cons a _ H c s eq_refl) as [s1 [s2 [-> [H1 H2]]]].
      constructor; trivial. now apply IHa.
Qed.

(** The derivative matcher decides the denotation. *)
Lemma fullMatch_spec (r : re) (s : str) : fullMatch r s = true <-> matches r s.
Proof.
  unfold fullMatch. revert r. induction s as [|c s IH]; intros r; cbn [fold_left].
  - apply nullable_spec.
  - rewrite IH. apply deriv_spec.
Qed.

End RegexFacts.

(** ** The order-number validator *)

Section ValidatorFacts.

Variable orderNumber : str.

(** The validator takes its early exit exactly on a blank input. *)
Lemma validate_blank_branch :
  str_eqb orderNumber [] || str_eqb (trim orderNumber) [] = true
  <-> trim orderNumber = [].
Proof.
  rewrite orb_true_iff, !str_eqb_eq. split.
  - intros [-> | H]; [reflexivity | exact H].
  - now right.
Qed.

Lemma validate_on_blank :
  trim orderNumber = [] ->
  validateOrderNumber orderNumber
  = {| isValid := true; errors := []; warnings := [missingWarning] |}.
Proof.
  intros H. unfold validateOrderNumber.
  now rewrite (proj2 validate_blank_branch H).
Qed.

Lemma validate_errors :
  trim orderNumber <> [] ->
  errors (validateOrderNumber orderNumber)
  = (if N.of_nat (List.length (trim orderNumber)) <? 3 then [tooShortError] else [])
    ++ (if Regex.testClass invalidChar (trim orderNumber)
        then [invalidCharsError] else []).
Proof.
  intros H. unfold validateOrderNumber.
  destruct (str_eqb orderNumber [] || str_eqb (trim orderNumber) []) eqn:E.
  - apply validate_blank_branch in E. contradiction.
  - cbn [errors].
    destruct (Regex.testClass invalidChar (trim orderNumber));
      [reflexivity | now rewrite app_nil_r].
Qed.

Lemma validate_isValid :
  isValid (validateOrderNumber orderNumber) = true
  <-> errors (validateOrderNumber orderNumber) = [].
Proof.
  unfold validateOrderNumber.
  destruct (str_eqb orderNumber [] || str_eqb (trim orderNumber) []).
  - cbn. tauto.
  - cbn [isValid errors].
    destruct (if Regex.testClass invalidChar (trim orderNumber)
              then _ else _); split; congruence.
Qed.

End ValidatorFacts.

Lemma tooShort_not_invalidChars : tooShortError <> invalidCharsError.
Proof. intros H. apply (f_equal rule) in H. vm_compute in H. discriminate. Qed.

Lemma invalidChars_not_allowed (c : N) : In c invalidChars -> specAllowed c = false.
Proof.
  assert (H : forallb (fun c => negb (specAllowed c)) invalidChars = true)
    by reflexivity.
  rewrite forallb_forall in H. intros Hc. apply H in Hc.
  now apply negb_true_iff in Hc.
Qed.

(** C9. On an empty or blank (white-space only) input validateOrderNumber
    returns isValid = true, no error and the single "order number missing"
    warning; and on every input isValid is true exactly when the list of
    errors is empty, whatever the warnings are. *)
Theorem validate_blank_and_validity (orderNumber : str) :
  (forallb isWhiteSpace orderNumber = true ->
   validateOrderNumber orderNumber
   = {| isValid := true; errors := []; warnings := [missingWarning] |})
  /\ (isValid (validateOrderNumber orderNumber) = true
      <-> errors (validateOrderNumber orderNumber) = []).
Proof.
  split.
  - intros H. apply validate_on_blank. now apply trim_blank.
  - apply validate_isValid.
Qed.

Lemma validate_blank_and_validity_witness :
  validateOrderNumber (u "   ")
  = {| isValid := true; errors := []; warnings := [missingWarning] |}.
Proof.
  apply (proj1 (validate_blank_and_validity (u "   "))). reflexivity.
Defined.

(** C3, as stated, fails: a comma is outside the allowed set, and
    "12,34/2024" gets no "invalid characters" error. *)
Lemma invalid_chars_counterexample :
  ~ (In invalidCharsError (errors (validateOrderNumber (u "12,34/2024")))
     <-> exists c, In c (trim (u "12,34/2024")) /\ specAllowed c = false).
Proof.
  intros [_ H].
  assert (E : errors (validateOrderNumber (u "12,34/2024")) = [])
    by (vm_compute; reflexivity).
  rewrite E in H. apply H. exists 44. split.
  - vm_compute. tauto.
  - reflexivity.
Qed.

(** C3, amended. validateOrderNumber reports the critical "invalid
    characters" error exactly when the trimmed input contains one of the
    listed special characters < > # @ $ % ^ & * ( ) + = | { } [ ] : ; double
    quote, quote, backquote, tilde; so a reported error always comes with a
    character outside the allowed set. *)
Theorem invalid_chars_iff_listed (orderNumber : str) :
  (In invalidCharsError (errors (validateOrderNumber orderNumber))
   <-> exists c, In c (trim orderNumber) /\ In c invalidChars)
  /\ (In invalidCharsError (errors (validateOrderNumber orderNumber))
      -> exists c, In c (trim orderNumber) /\ specAllowed c = false)
  /\ severity invalidCharsError = val (u "critical").
Proof.
  assert (M : In invalidCharsError (errors (validateOrderNumber orderNumber))
              <-> exists c, In c (trim orderNumber) /\ In c invalidChars).
  { destruct (list_eq_dec N.eq_dec (trim orderNumber) []) as [E | NE].
    - rewrite (validate_on_blank _ E), E. cbn [errors In]. split.
      + tauto.
      + intros [c [[] _]].
    - rewrite (validate_errors _ NE), in_app_iff.
      unfold Regex.testClass, invalidChar.
      rewrite <- existsb_oneOf.
      destruct (existsb (Regex.oneOf invalidChars) (trim orderNumber)).
      + split; [reflexivity | intros _; right; now left].
      + split; [|discriminate]. intros [H | []].
        destruct (N.of_nat (List.length (trim orderNumber)) <? 3).
        * destruct H as [H | []]. now apply tooShort_not_invalidChars in H.
        * destruct H. }
  split; [exact M|]. split; [|reflexivity].
  intros H. apply M in H as [c [Hc Hi]]. exists c. split; trivial.
  now apply invalidChars_not_allowed.
Qed.

Lemma invalid_chars_iff_listed_witness :
  In invalidCharsError (errors (validateOrderNumber (u "12#34/2024"))).
Proof.
  apply (proj2 (proj1 (invalid_chars_iff_listed (u "12#34/2024")))).
  exists 35. split; vm_compute; tauto.
Defined.

(** ** The severity filter *)

Lemma filter_twice {A : Type} (p : A -> bool) (l : list A) :
  filter p (filter p l) = filter p l.
Proof.
  induction l as [|x l IH]; [reflexivity|]. cbn [filter].
  destruct (p x) eqn:E; [|exact IH]. cbn [filter]. now rewrite E, IH.
Qed.

Lemma filter_all {A : Type} (p : A -> bool) (l : list A) :
  (forall x, In x l -> p x = true) -> filter p l = l.
Proof.
  induction l as [|x l IH]; [reflexivity|]. intros H. cbn [filter].
  rewrite (H x (or_introl eq_refl)), IH; [reflexivity|].
  intros y Hy. apply H. now right.
Qed.

Lemma visible_all (it : Issue) : visible (u "all") it = true.
Proof. reflexivity. Qed.

Lemma filtered_all (l : list Issue) : filtered (u "all") l = l.
Proof. apply filter_all. intros x _. apply visible_all. Qed.

Lemma visible_in_model (f : str) (it : Issue) :
  f = u "critical" \/ f = u "warning" \/ f = u "info" ->
  severityInModel it ->
  visible f it = severityIs f it.
Proof.
  unfold severityInModel, severityIs, visible.
  intros Hf Hs.
  assert (Hall : str_eqb f (u "all") = false)
    by (destruct Hf as [-> | [-> | ->]]; reflexivity).
  rewrite Hall.
  destruct (severity it) as [| | s].
  - destruct Hf as [-> | [-> | ->]]; reflexivity.
  - destruct Hf as [-> | [-> | ->]]; reflexivity.
  - destruct Hs as [-> | [-> | ->]]; reflexivity.
Qed.

(** An issue without a severity passes no specific filter. *)
Lemma visible_no_severity (f : str) (it : Issue) :
  severity it = undefined \/ severity it = null ->
  visible f it = str_eqb f (u "all") || str_eqb [] f.
Proof.
  unfold visible. intros [-> | ->]; cbn [orElse toLowerCase map];
    destruct (str_eqb f (u "all")); reflexivity.
Qed.

Lemma visible_lower (f : str) (it : Issue) :
  f = u "critical" \/ f = u "warning" \/ f = u "info" ->
  visible f it = severityIsLower f it.
Proof.
  unfold severityIsLower, visible. intros Hf.
  assert (Hall : str_eqb f (u "all") = false)
    by (destruct Hf as [-> | [-> | ->]]; reflexivity).
  rewrite Hall. destruct (severity it) as [| | [|c s]]; cbn [orElse]; trivial;
    destruct Hf as [-> | [-> | ->]]; reflexivity.
Qed.

Lemma filtered_lower (f : str) (l : list Issue) :
  FilterState f ->
  filtered f l = (if str_eqb f (u "all") then l else filter (severityIsLower f) l).
Proof.
  intros [-> | Hf].
  - change (str_eqb (u "all") (u "all")) with true. apply filtered_all.
  - assert (Hall : str_eqb f (u "all") = false)
      by (destruct Hf as [-> | [-> | ->]]; reflexivity).
    rewrite Hall. unfold filtered. apply filter_ext.
    intros it. now apply visible_lower.
Qed.

Lemma filtered_in_model (f : str) (l : list Issue) :
  FilterState f -> Forall severityInModel l ->
  filtered f l = (if str_eqb f (u "all") then l else filter (severityIs f) l).
Proof.
  intros [-> | Hf] Hl.
  - change (str_eqb (u "all") (u "all")) with true. apply filtered_all.
  - assert (Hall : str_eqb f (u "all") = false)
      by (destruct Hf as [-> | [-> | ->]]; reflexivity).
    rewrite Hall. unfold filtered. apply filter_ext_in.
    intros it Hit. apply visible_in_model; trivial.
    rewrite Forall_forall in Hl. now apply Hl.
Qed.

Section Clicks.

Variable report : Report.

(** After any clicks, the page is the rendering of the report that was
    rendered first, under the filter clicked last. *)
Lemma clicks_full (fs : list str) (f : str) (st : Full.Session) (v : Full.View) :
  Full.lastReport st = Some report ->
  clickFilters (fs ++ [f]) (st, v)
  = Full.renderReport report
      {| Full.chosen := Full.chosen st; Full.lastReport := Some report;
         Full.comments := Full.comments st; Full.currentFilter := f |}.
Proof.
  revert st v. induction fs as [|g fs IH]; intros st v L;
    cbn [app clickFilters fst]; unfold Full.clickFilter; cbn [Full.lastReport];
    rewrite L.
  - reflexivity.
  - unfold Full.renderReport at 1. rewrite IH by reflexivity. reflexivity.
Qed.

Lemma clicks_reduced (fs : list str) (f : str) (st : Reduced.Session)
      (v : Reduced.View) :
  Reduced.lastReport st = Some report ->
  clickFiltersReduced (fs ++ [f]) (st, v)
  = Reduced.renderReport report
      {| Reduced.chosen := Reduced.chosen st; Reduced.lastReport := Some report;
         Reduced.currentFilter := f |}.
Proof.
  revert st v. induction fs as [|g fs IH]; intros st v L;
    cbn [app clickFiltersReduced fst]; unfold Reduced.clickFilter;
    cbn [Reduced.lastReport]; rewrite L.
  - reflexivity.
  - unfold Reduced.renderReport at 1. rewrite IH by reflexivity. reflexivity.
Qed.

End Clicks.

(** C4, as stated, fails: the severity is put in lower case before it is
    compared, so an issue of severity "CRITICAL" is visible under the state
    "critical", which its severity does not equal. *)
Lemma filter_case_counterexample :
  filtered (u "critical") [warningIssue; shoutIssue] = [shoutIssue]
  /\ severityIs (u "critical") shoutIssue = false
  /\ filter (severityIs (u "critical")) [warningIssue; shoutIssue] = []
  /\ filtered (u "critical") [warningIssue; shoutIssue]
     <> filter (severityIs (u "critical")) [warningIssue; shoutIssue].
Proof.
  assert (A : filtered (u "critical") [warningIssue; shoutIssue] = [shoutIssue])
    by (vm_compute; reflexivity).
  assert (B : filter (severityIs (u "critical")) [warningIssue; shoutIssue] = [])
    by (vm_compute; reflexivity).
  split; [exact A|]. split; [vm_compute; reflexivity|]. split; [exact B|].
  rewrite A, B. discriminate.
Qed.

(** C4, amended. For each of the four filter states the visible issues are a
    function of the issue list and the state alone: all the issues, in their
    order, under "all", and otherwise exactly those whose severity, put in
    lower case, equals the state (for severities written as in the data
    model: whose severity equals the state), in the order of the report.
    Filtering a second time changes nothing. In either script, after the
    report was rendered and any filter chips were clicked, the stored report
    is still the report that was given, the page depends on the filter
    clicked last only: it counts and shows exactly the filtered issues, one
    card each in their order, and one more click on the same chip changes
    neither state nor page. *)
Theorem filter_view_lower_case (f : str) (l : list Issue) :
  FilterState f ->
  filtered f l = (if str_eqb f (u "all") then l else filter (severityIsLower f) l)
  /\ (Forall severityInModel l ->
      filtered f l = (if str_eqb f (u "all") then l else filter (severityIs f) l))
  /\ filtered (u "all") l = l
  /\ filtered f (filtered f l) = filtered f l
  /\ (forall report st fs,
        issuesOf report = l ->
        let (st', v) := clickFilters (fs ++ [f]) (Full.renderReport report st) in
        Full.lastReport st' = Some report
        /\ Full.currentFilter st' = f
        /\ Full.viewShown v = List.length (filtered f l)
        /\ Full.viewOutOf v = List.length l
        /\ (l = [] -> Full.viewIssues v = Full.NoIssues)
        /\ (l <> [] -> filtered f l = [] ->
            Full.viewIssues v = Full.NothingForFilter (filterLabel f))
        /\ (filtered f l <> [] ->
            Full.viewIssues v = Full.Cards (mapi Full.renderIssue (filtered f l)))
        /\ Full.clickFilter f st' = Some (st', v))
  /\ (forall report st fs,
        issuesOf report = l ->
        let (st', v) :=
          clickFiltersReduced (fs ++ [f]) (Reduced.renderReport report st) in
        Reduced.lastReport st' = Some report
        /\ Reduced.currentFilter st' = f
        /\ Reduced.viewShown v = List.length (filtered f l)
        /\ Reduced.viewOutOf v = List.length l
        /\ (l = [] -> Reduced.viewIssues v = Reduced.NoIssues)
        /\ (l <> [] -> filtered f l = [] ->
            Reduced.viewIssues v = Reduced.NothingForFilter (filterLabel f))
        /\ (filtered f l <> [] ->
            Reduced.viewIssues v
            = Reduced.Cards (mapi Reduced.renderIssue (filtered f l)))
        /\ Reduced.clickFilter f st' = Some (st', v)).
Proof.
  intros Hf.
  split; [now apply filtered_lower|].
  split; [now apply filtered_in_model|].
  split; [apply filtered_all|].
  split; [apply filter_twice|].
  split.
  - intros report st fs E.
    rewrite (surjective_pairing (Full.renderReport report st)).
    rewrite (clicks_full report) by reflexivity.
    unfold Full.clickFilter, Full.renderReport.
    cbn [fst snd Full.chosen Full.comments Full.lastReport Full.currentFilter
         Full.viewShown Full.viewOutOf Full.viewIssues].
    rewrite E.
    split; [reflexivity|]. split; [reflexivity|]. split; [reflexivity|].
    split; [reflexivity|]. split; [now intros ->|]. split.
    { intros N Z. destruct l; [contradiction|]. now rewrite Z. }
    split; [|reflexivity].
    intros N. destruct l; [now cbn in N|].
    destruct (filtered f (i :: l)); [contradiction | reflexivity].
  - intros report st fs E.
    rewrite (surjective_pairing (Reduced.renderReport report st)).
    rewrite (clicks_reduced report) by reflexivity.
    unfold Reduced.clickFilter, Reduced.renderReport.
    cbn [fst snd Reduced.chosen Reduced.lastReport Reduced.currentFilter
         Reduced.viewShown Reduced.viewOutOf Reduced.viewIssues].
    rewrite E.
    split; [reflexivity|]. split; [reflexivity|]. split; [reflexivity|].
    split; [reflexivity|]. split; [now intros ->|]. split.
    { intros N Z. destruct l; [contradiction|]. now rewrite Z. }
    split; [|reflexivity].
    intros N. destruct l; [now cbn in N|].
    destruct (filtered f (i :: l)); [contradiction | reflexivity].
Qed.

Lemma filter_view_lower_case_witness :
  filtered (u "critical") [warningIssue; shoutIssue]
  = filter (severityIsLower (u "critical")) [warningIssue; shoutIssue]
  /\ filtered (u "info") [warningIssue; infoIssue]
     = filter (severityIs (u "info")) [warningIssue; infoIssue].
Proof.
  split.
  - refine (proj1 (filter_view_lower_case (u "critical")
                     [warningIssue; shoutIssue] _)).
    right; left; reflexivity.
  - refine (proj1 (proj2 (filter_view_lower_case (u "info")
                            [warningIssue; infoIssue] _)) _).
    + right; right; right; reflexivity.
    + apply Forall_cons; [right; left; reflexivity|].
      apply Forall_cons; [right; right; reflexivity|]. apply Forall_nil.
Defined.

(** ** The displayed total *)

(** C5, as stated, fails when the whole summary is absent: the default
    summary object carries total 0, so 0 is displayed for one issue. *)
Lemma displayed_total_counterexample :
  summary reportWithoutSummary = None
  /\ List.length (issuesOf reportWithoutSummary) = 1%nat
  /\ displayedTotal reportWithoutSummary = 0%Z
  /\ (forall st, Full.viewTotal (snd (Full.renderReport reportWithoutSummary st)) = 0%Z)
  /\ (forall st, Reduced.viewTotal (snd (Reduced.renderReport reportWithoutSummary st)) = 0%Z)
  /\ displayedTotal reportWithoutSummary
     <> Z.of_nat (List.length (issuesOf reportWithoutSummary)).
Proof.
  repeat split; discriminate.
Qed.

(** C5, amended. For every report that has a summary object whose total is
    absent (missing or null), both renderers display the number of issues as
    the total. *)
Theorem displayed_total_fallback (report : Report) (s : Summary) :
  summary report = Some s ->
  total s = undefined \/ total s = null ->
  displayedTotal report = Z.of_nat (List.length (issuesOf report))
  /\ (forall st, Full.viewTotal (snd (Full.renderReport report st))
                 = Z.of_nat (List.length (issuesOf report)))
  /\ (forall st, Reduced.viewTotal (snd (Reduced.renderReport report st))
                 = Z.of_nat (List.length (issuesOf report))).
Proof.
  intros Hs Ht.
  assert (E : displayedTotal report = Z.of_nat (List.length (issuesOf report))).
  { unfold displayedTotal, summaryOf. rewrite Hs.
    destruct Ht as [-> | ->]; reflexivity. }
  repeat split; intros; exact E.
Qed.

Lemma displayed_total_fallback_witness : displayedTotal reportWithoutTotal = 2%Z.
Proof.
  refine (proj1 (displayed_total_fallback reportWithoutTotal summaryWithoutTotal
                   eq_refl _)).
  left; reflexivity.
Defined.

(** ** An issue without a severity *)

(** C10. An issue whose severity is absent is visible under "all" and under
    none of the filters critical, warning and info, and when it is rendered
    (in either script) it carries the label of the info severity. *)
Theorem no_severity_only_under_all (it : Issue) (l : list Issue) (f : str) :
  severity it = undefined \/ severity it = null ->
  FilterState f ->
  (In it (filtered f l) <-> In it l /\ f = u "all")
  /\ visible (u "all") it = true
  /\ visible (u "critical") it = false
  /\ visible (u "warning") it = false
  /\ visible (u "info") it = false
  /\ (forall index, Full.cardLabel (Full.renderIssue it index) = u "Информация")
  /\ (forall index, Reduced.cardLabel (Reduced.renderIssue it index) = u "Информация").
Proof.
  intros Hs Hf.
  split.
  { unfold filtered. rewrite filter_In, (visible_no_severity f it Hs).
    destruct Hf as [-> | [-> | [-> | ->]]];
      (split; [intros [Hin Hv]; split; trivial; try discriminate Hv
              | intros [Hin Hv]; split; trivial; try discriminate Hv]). }
  repeat split; try (rewrite (visible_no_severity _ it Hs); reflexivity);
    intros index; unfold Full.renderIssue, Reduced.renderIssue;
    cbn [Full.cardLabel Reduced.cardLabel];
    destruct Hs as [-> | ->]; reflexivity.
Qed.

Lemma no_severity_only_under_all_witness :
  ~ In noSeverityIssue (filtered (u "info") [warningIssue; noSeverityIssue])
  /\ Full.cardLabel (Full.renderIssue noSeverityIssue 0) = u "Информация".
Proof.
  pose proof (no_severity_only_under_all noSeverityIssue
                [warningIssue; noSeverityIssue] (u "info")
                (or_introl eq_refl)
                (or_intror (or_intror (or_intror eq_refl)))) as H.
  split.
  - intros Hin. apply (proj1 H) in Hin. destruct Hin as [_ E]. discriminate E.
  - apply (proj1 (proj2 (proj2 (proj2 (proj2 (proj2 H)))))).
Defined.

(** ** Location buckets *)

Section BucketFacts.

Import Buckets Hints.

Lemma countOf_bump (k k' : str) (m : list (str * nat)) :
  countOf k (bump k' m) = if str_eqb k k' then S (countOf k m) else countOf k m.
Proof.
  induction m as [|[k0 n] r IH].
  - cbn. now destruct (str_eqb k k').
  - cbn [bump]. destruct (str_eqb k' k0) eqn:E0.
    + apply str_eqb_eq in E0. subst k0. cbn [countOf].
      now destruct (str_eqb k k').
    + cbn [countOf]. destruct (str_eqb k k0) eqn:E1.
      * apply str_eqb_eq in E1. subst k0.
        destruct (str_eqb k k') eqn:E2; [|reflexivity].
        apply str_eqb_eq in E2. subst k'. now rewrite str_eqb_refl in E0.
      * exact IH.
Qed.

Lemma countOf_fold (k : str) (l : list Issue) (acc : list (str * nat)) :
  countOf k
    (fold_left
       (fun m issue =>
          match locationName issue with
          | Some k' => bump k' m
          | None => m
          end) l acc)
  = (countOf k acc + List.length (filter (labelled k) l))%nat.
Proof.
  revert acc. induction l as [|issue l IH]; intros acc; cbn [fold_left filter].
  - cbn. lia.
  - rewrite IH. unfold labelled at 2.
    destruct (locationName issue) as [k'|]; [|reflexivity].
    rewrite countOf_bump. destruct (str_eqb k k'); cbn [List.length]; lia.
Qed.

(** Every bucket counts the issues that were given its label. *)
Lemma locationCounts_count (k : str) (l : list Issue) :
  countOf k (locationCounts l) = List.length (filter (labelled k) l).
Proof. unfold locationCounts. now rewrite countOf_fold. Qed.

Lemma filter_length_pos {A : Type} (p : A -> bool) (x : A) (l : list A) :
  In x l -> p x = true -> (1 <= List.length (filter p l))%nat.
Proof.
  intros Hin Hp. assert (H : In x (filter p l)) by (apply filter_In; tauto).
  destruct (filter p l); [destruct H | cbn; lia].
Qed.

End BucketFacts.

(** ** Location tokens *)

Section TokenFacts.

Lemma split_no_sep (sep : N) (s : str) : ~ In sep s -> split sep s = [s].
Proof.
  induction s as [|c s IH]; [reflexivity|]. intros H. cbn [split].
  destruct (N.eqb_spec c sep) as [-> | _]; [exfalso; apply H; now left|].
  rewrite IH; [reflexivity|]. intros Hin. apply H. now right.
Qed.

Lemma split_at_sep (sep : N) (a t : str) :
  ~ In sep a -> split sep (a ++ sep :: t) = a :: split sep t.
Proof.
  induction a as [|c a IH]; intros H; cbn [app split].
  - now rewrite N.eqb_refl.
  - destruct (N.eqb_spec c sep) as [-> | _]; [exfalso; apply H; now left|].
    rewrite IH; [reflexivity|]. intros Hin. apply H. now right.
Qed.

Lemma pageNum_between (a b : str) :
  ~ In 58 a -> ~ In 58 b -> Buckets.pageNum (a ++ 58 :: b) = b.
Proof.
  intros Ha Hb. unfold Buckets.pageNum.
  now rewrite (split_at_sep 58 a b Ha), (split_no_sep 58 b Hb).
Qed.

Lemma colon_differs (loc k : str) :
  In 58 loc -> existsb (N.eqb 58) k = false -> str_eqb loc k = false.
Proof.
  intros Hin Hk. apply str_eqb_neq. intros ->.
  assert (T : existsb (N.eqb 58) k = true)
    by (apply existsb_exists; exists 58; split; [exact Hin | apply N.eqb_refl]).
  congruence.
Qed.

End TokenFacts.

(** C1, as stated, fails: a message with the surname marker (and no "ФИО")
    on token "page:3" lands in the bucket "Страница 3". *)
Lemma name_bucket_counterexample :
  contains (u "Фамилия не найдена") (u "Фамилия")
  /\ Hints.isFIO surnameIssue = true
  /\ Buckets.locationName surnameIssue = Some (u "Страница 3")
  /\ Buckets.locationCounts [surnameIssue] = [(u "Страница 3", 1%nat)]
  /\ Buckets.locationName surnameIssue <> Some (u "Ошибки ФИО").
Proof.
  assert (L : Buckets.locationName surnameIssue = Some (u "Страница 3"))
    by (vm_compute; reflexivity).
  split; [exists [], (u " не найдена"); vm_compute; reflexivity|].
  split; [vm_compute; reflexivity|].
  split; [exact L|].
  split; [vm_compute; reflexivity|].
  rewrite L. intros H.
  assert (D : u "Страница 3" <> u "Ошибки ФИО")
    by (apply str_eqb_neq; vm_compute; reflexivity).
  apply D. congruence.
Qed.

Section TokenLabels.

Import Buckets.

(** The label of an issue whose message does not bring in the name bucket:
    the chain of tests on the token alone. *)
Lemma label_by_token (issue : Issue) (c : N) (r : str) :
  location issue = val (c :: r) ->
  whenStr (message issue) (fun m => includes m (u "ФИО") || includes m (u "фио"))
  = false ->
  locationName issue
  = Some (if str_eqb (c :: r) (u "title_page") then u "Титульная страница"
          else if includes (c :: r) (u "page:") then u "Страница " ++ pageNum (c :: r)
          else if str_eqb (c :: r) (u "calendar_plan_table")
          then u "Таблица календарного плана"
          else if str_eqb (c :: r) (u "document") then u "Основной текст"
          else c :: r).
Proof.
  intros L M. unfold locationName. now rewrite L, M.
Qed.

Lemma no_fio_message (issue : Issue) :
  (forall m, message issue = val m ->
             ~ contains m (u "ФИО") /\ ~ contains m (u "фио")) ->
  whenStr (message issue) (fun m => includes m (u "ФИО") || includes m (u "фио"))
  = false.
Proof.
  intros H. destruct (message issue) as [| | [|c r]]; try reflexivity.
  cbn [whenStr]. destruct (H (c :: r) eq_refl) as [A B].
  apply orb_false_iff. split.
  - destruct (includes (c :: r) (u "ФИО")) eqn:E; [|reflexivity].
    apply includes_spec in E. contradiction.
  - destruct (includes (c :: r) (u "фио")) eqn:E; [|reflexivity].
    apply includes_spec in E. contradiction.
Qed.

End TokenLabels.

(** C1, amended. Every issue that carries a location token and whose message
    contains "ФИО" or "фио" is given the bucket "Ошибки ФИО", whatever the
    token is. An issue that carries a location token and whose message
    contains neither (whatever other name keyword it contains) is bucketed
    by its token alone: "title_page", "calendar_plan_table" and "document"
    have their fixed labels, a token with "page:" in it is "Страница"
    followed by what stands between its first and second colon (so
    "page:N" is "Страница N"), and any other token is its own label. Every
    bucket whose label is not a property name inherited from
    [Object.prototype] counts exactly the issues that were given its label,
    so an issue of the first kind is counted under "Ошибки ФИО". *)
Theorem fio_message_bucket (issue : Issue) (loc : str) (l : list Issue) :
  location issue = val loc ->
  loc <> [] ->
  (forall m, message issue = val m ->
             contains m (u "ФИО") \/ contains m (u "фио") ->
             Buckets.locationName issue = Some (u "Ошибки ФИО")
             /\ (In issue l ->
                 (1 <= countOf (u "Ошибки ФИО") (Buckets.locationCounts l))%nat))
  /\ ((forall m, message issue = val m ->
                 ~ contains m (u "ФИО") /\ ~ contains m (u "фио")) ->
      (loc = u "title_page" ->
       Buckets.locationName issue = Some (u "Титульная страница"))
      /\ (loc <> u "title_page" -> contains loc (u "page:") ->
          Buckets.locationName issue = Some (u "Страница " ++ Buckets.pageNum loc))
      /\ (forall a b, loc = a ++ 58 :: b -> ~ In 58 a -> ~ In 58 b ->
                      contains loc (u "page:") ->
                      Buckets.locationName issue = Some (u "Страница " ++ b))
      /\ (loc = u "calendar_plan_table" ->
          Buckets.locationName issue = Some (u "Таблица календарного плана"))
      /\ (loc = u "document" ->
          Buckets.locationName issue = Some (u "Основной текст"))
      /\ (loc <> u "title_page" -> ~ contains loc (u "page:") ->
          loc <> u "calendar_plan_table" -> loc <> u "document" ->
          Buckets.locationName issue = Some loc))
  /\ (forall k, existsb (str_eqb k) inheritedNames = false ->
                countOf k (Buckets.locationCounts l)
                = List.length (filter (labelled k) l))
  /\ existsb (str_eqb (u "Ошибки ФИО")) inheritedNames = false.
Proof.
  intros Hloc Hne. destruct loc as [|c r]; [contradiction|].
  split; [|split; [|split]].
  - intros m Hm Hc.
    assert (L : Buckets.locationName issue = Some (u "Ошибки ФИО")).
    { unfold Buckets.locationName. rewrite Hloc, Hm.
      assert (I : includes m (u "ФИО") || includes m (u "фио") = true).
      { apply orb_true_iff. destruct Hc as [H | H]; [left | right];
          now apply includes_spec. }
      destruct m as [|d m'].
      - cbn in I. discriminate I.
      - cbn [whenStr]. now rewrite I. }
    split; [exact L|].
    intros Hin. rewrite locationCounts_count.
    apply (filter_length_pos _ issue); trivial.
    unfold labelled. rewrite L. apply str_eqb_refl.
  - intros Hm. apply no_fio_message in Hm.
    rewrite (label_by_token issue c r Hloc Hm).
    split; [|split; [|split; [|split; [|split]]]].
    + intros ->. now rewrite str_eqb_refl.
    + intros N P. apply str_eqb_neq in N. apply includes_spec in P.
      now rewrite N, P.
    + intros a b E Ha Hb P. apply includes_spec in P.
      assert (C : In 58 (c :: r)) by (rewrite E; apply in_or_app; right; now left).
      rewrite (colon_differs _ (u "title_page") C) by (vm_compute; reflexivity).
      rewrite P, E. now rewrite (pageNum_between a b Ha Hb).
    + intros ->. vm_compute. reflexivity.
    + intros ->. vm_compute. reflexivity.
    + intros N1 P N2 N3. apply str_eqb_neq in N1, N2, N3.
      rewrite N1, N2, N3.
      destruct (includes (c :: r) (u "page:")) eqn:E; [|reflexivity].
      apply includes_spec in E. contradiction.
  - intros k _. apply locationCounts_count.
  - vm_compute. reflexivity.
Qed.

Lemma fio_message_bucket_witness :
  Buckets.locationName fioPageIssue = Some (u "Ошибки ФИО")
  /\ Buckets.locationName surnameIssue = Some (u "Страница " ++ u "3").
Proof.
  split.
  - refine (proj1 (proj1 (fio_message_bucket fioPageIssue (u "page:3")
                            [fioPageIssue] eq_refl _)
                     (u "ФИО студента не найдено") eq_refl _)).
    + apply str_eqb_neq. vm_compute. reflexivity.
    + left. exists [], (u " студента не найдено"). vm_compute. reflexivity.
  - refine (proj1 (proj2 (proj2 (proj1 (proj2
              (fio_message_bucket surnameIssue (u "page:3") [surnameIssue] eq_refl _))
              _))) (u "page") (u "3") _ _ _ _).
    + apply str_eqb_neq. vm_compute. reflexivity.
    + intros m E. unfold surnameIssue in E. cbn [message] in E.
      assert (Em : m = u "Фамилия не найдена") by congruence. subst m.
      split; intros H; apply includes_spec in H; vm_compute in H; discriminate H.
    + vm_compute. reflexivity.
    + vm_compute. intuition discriminate.
    + vm_compute. intuition discriminate.
    + apply includes_spec. vm_compute. reflexivity.
Defined.

(** ** Hints *)

Section HintFacts.

Import Hints Full.

Lemma app_nonempty (a b : str) : a <> [] -> a ++ b <> [].
Proof. destruct a; [contradiction | discriminate]. Qed.

Lemma lit_nonempty (a : str) : str_eqb a [] = false -> a <> [].
Proof. intros H. now apply str_eqb_neq. Qed.

Ltac literal := apply lit_nonempty; vm_compute; reflexivity.

Lemma getFIOHint_nonempty (m : str) (e : prop str) : getFIOHint m e <> [].
Proof.
  unfold getFIOHint. cbv zeta.
  repeat match goal with
         | |- (if ?c then _ else _) <> [] => destruct c
         end;
    try literal.
  all: apply app_nonempty; literal.
Qed.

Lemma getOrderNumberHint_nonempty (m : str) (e : prop str) :
  getOrderNumberHint m e <> [].
Proof.
  unfold getOrderNumberHint. cbv zeta.
  repeat match goal with
         | |- (if ?c then _ else _) <> [] => destruct c
         end;
    literal.
Qed.

Lemma replaceNewlines_nonempty (r s : str) :
  r <> [] -> s <> [] -> replaceNewlines r s <> [].
Proof.
  intros Hr Hs. destruct s as [|c s]; [contradiction|].
  unfold replaceNewlines. cbn [flat_map].
  destruct (c =? 10); [now apply app_nonempty | discriminate].
Qed.

Lemma truthy_val (p : prop str) :
  truthy p = true <-> exists c r, p = val (c :: r).
Proof.
  destruct p as [| | [|c r]]; cbn; split; try discriminate;
    try (intros [c' [r' H]]; discriminate H).
  - intros _. now exists c, r.
  - reflexivity.
Qed.

Lemma locationBadge_text (it : Issue) :
  badgeText (locationBadge it) <> []
  <-> isFIO it = true \/ isOrderNumber it = true \/ truthy (location it) = true.
Proof.
  unfold locationBadge.
  destruct (isFIO it).
  { cbn [badgeText]. split; [now left | intros _; apply getFIOHint_nonempty]. }
  destruct (isOrderNumber it).
  { cbn [badgeText]. split; [intros _; right; now left|].
    intros _. apply replaceNewlines_nonempty.
    - literal.
    - apply getOrderNumberHint_nonempty. }
  destruct (location it) as [| | [|c r]]; cbn [truthy badgeText].
  - split; [contradiction | intros [H | [H | H]]; discriminate H].
  - split; [contradiction | intros [H | [H | H]]; discriminate H].
  - split; [contradiction | intros [H | [H | H]]; discriminate H].
  - split; [intros _; right; now right|]. intros _.
    repeat match goal with
           | |- badgeText (if ?c then _ else _) <> [] => destruct c
           end; cbn [badgeText]; try literal;
      try (apply app_nonempty; literal); discriminate.
Qed.

Lemma evidenceHint_shown (it : Issue) :
  evidenceHint it <> None <-> shownEvidence (evidence it) = true.
Proof.
  unfold evidenceHint. destruct (shownEvidence (evidence it)); split;
    congruence.
Qed.

End HintFacts.

(** C2, as stated, fails: an issue outside both families, with no location,
    evidence, fix or rule, gets no hint at all, on the page and in the
    export. *)
Lemma hint_total_counterexample :
  Full.evidenceHint bareIssue = None
  /\ Full.locationBadge bareIssue = Full.BadgeNone
  /\ badgeText (Full.locationBadge bareIssue) = []
  /\ Download.detailedHint bareIssue = [].
Proof. compute_each. Qed.

(** C2, amended. The two family generators are total and never return the
    empty string; so on the page an issue gets a hint badge with a non-empty
    text exactly when it matches the name family or the order-number family
    or carries a location, and an evidence block exactly when its evidence
    is present and not a placeholder. Outside these cases the hint is
    empty; so is the hint of the export for an issue outside the name family
    with no location, evidence, fix or rule. *)
Theorem hint_nonempty_iff (it : Issue) :
  (forall m e, Hints.getFIOHint m e <> [])
  /\ (forall m e, Hints.getOrderNumberHint m e <> [])
  /\ (badgeText (Full.locationBadge it) <> []
      <-> Hints.isFIO it = true \/ Hints.isOrderNumber it = true
          \/ truthy (location it) = true)
  /\ (Full.evidenceHint it <> None <-> shownEvidence (evidence it) = true)
  /\ (Hints.isFIO it = false -> truthy (location it) = false ->
      shownEvidence (evidence it) = false -> truthy (how_to_fix it) = false ->
      truthy (rule it) = false -> Download.detailedHint it = []).
Proof.
  split; [exact getFIOHint_nonempty|].
  split; [exact getOrderNumberHint_nonempty|].
  split; [apply locationBadge_text|].
  split; [apply evidenceHint_shown|].
  intros Hf Hl He Hh Hr.
  unfold Download.detailedHint, Download.familyHint.
  rewrite Hf, He, Hh, Hr.
  destruct (location it) as [| | [|c r]]; try reflexivity. discriminate Hl.
Qed.

Lemma hint_nonempty_iff_witness :
  badgeText (Full.locationBadge fioPageIssue) <> [].
Proof.
  apply (proj2 (proj1 (proj2 (proj2 (hint_nonempty_iff fioPageIssue))))).
  left. vm_compute. reflexivity.
Defined.

(** ** Hint families *)

Lemma includes_any (m : str) (ks : list str) :
  existsb (includes m) ks = true <-> exists k, In k ks /\ contains m k.
Proof.
  rewrite existsb_exists. unfold contains.
  split; intros [k [Hk H]]; exists k; split; trivial; now apply includes_spec.
Qed.

Lemma whenStr_spec (p : prop str) (f : str -> bool) :
  whenStr p f = true <-> exists m, p = val m /\ m <> [] /\ f m = true.
Proof.
  destruct p as [| | [|c r]]; cbn [whenStr]; split;
    try discriminate; try (intros [m [H _]]; discriminate H).
  - intros [m [H [Hne _]]]. injection H as <-. contradiction.
  - intros H. exists (c :: r). repeat split; trivial. discriminate.
  - intros [m [H [_ Hf]]]. injection H as <-. exact Hf.
Qed.

Lemma fioKeywords_any (m : str) :
  Hints.fioKeywords m = existsb (includes m) nameKeywords.
Proof.
  unfold Hints.fioKeywords, nameKeywords. cbn [existsb].
  rewrite orb_false_r, !orb_assoc. reflexivity.
Qed.

Lemma isFIO_spec (it : Issue) :
  Hints.isFIO it = true
  <-> exists m, message it = val m /\ exists k, In k nameKeywords /\ contains m k.
Proof.
  unfold Hints.isFIO. rewrite whenStr_spec. split.
  - intros [m [Hm [_ H]]]. exists m. split; trivial.
    apply includes_any. now rewrite <- fioKeywords_any.
  - intros [m [Hm H]]. exists m. split; trivial.
    apply includes_any in H. rewrite <- fioKeywords_any in H. split; trivial.
    intros ->. vm_compute in H. discriminate H.
Qed.

Lemma isOrderNumber_spec (it : Issue) :
  Hints.isOrderNumber it = true
  <-> exists m, message it = val m /\ m <> []
      /\ ((exists k, In k orderKeywords /\ contains m k)
          \/ exists r, rule it = val r /\ contains r (u "OrderNumber")).
Proof.
  unfold Hints.isOrderNumber. rewrite whenStr_spec.
  assert (K : forall m,
             includes m (u "номер приказа") || includes m (u "приказ")
             || includes m (u "распоряжение")
             = existsb (includes m) orderKeywords).
  { intros m. unfold orderKeywords. cbn [existsb].
    now rewrite orb_false_r, !orb_assoc. }
  split.
  - intros [m [Hm [Hne H]]]. exists m. repeat split; trivial.
    rewrite K in H. apply orb_true_iff in H as [H | H].
    + left. now apply includes_any.
    + right. apply whenStr_spec in H as [r [Hr [_ H]]]. exists r. split; trivial.
      now apply includes_spec.
  - intros [m [Hm [Hne H]]]. exists m. repeat split; trivial.
    rewrite K. apply orb_true_iff. destruct H as [H | [r [Hr H]]].
    + left. now apply includes_any.
    + right. apply whenStr_spec. exists r. split; trivial.
      apply includes_spec in H. split; trivial.
      intros ->. vm_compute in H. discriminate H.
Qed.

(** C6, as stated, fails: the family keywords are looked up as written, so
    two messages that differ in letter case only are sent to different
    families; and an issue may be given no family at all. *)
Lemma family_case_counterexample :
  toLowerCase (u "СТУДЕНТ НЕ НАЙДЕН") = toLowerCase (u "студент не найден")
  /\ selectedFamily studentLower = Some NameFormat
  /\ selectedFamily studentUpper = Some GenericLocation
  /\ selectedFamily studentLower <> selectedFamily studentUpper
  /\ selectedFamily bareIssue = None.
Proof.
  assert (A : selectedFamily studentLower = Some NameFormat)
    by (vm_compute; reflexivity).
  assert (B : selectedFamily studentUpper = Some GenericLocation)
    by (vm_compute; reflexivity).
  split; [vm_compute; reflexivity|].
  split; [exact A|]. split; [exact B|]. split.
  - rewrite A, B. discriminate.
  - vm_compute. reflexivity.
Qed.

(** C6, amended. renderReport selects at most one hint family for an issue,
    by looking up the keywords in the message exactly as they are written
    (case-sensitively): the name family when the message contains one of
    "ФИО", "фио", "Фамилия", "студент", "руководитель", "падеж", "сокращени";
    otherwise the order-number family when the message is not empty and
    contains "номер приказа", "приказ" or "распоряжение", or the rule
    contains "OrderNumber"; otherwise the location family when a location
    token is present; otherwise none. The export knows the name family and
    the location family only. *)
Theorem family_priority (it : Issue) :
  (Hints.isFIO it = true
   <-> exists m, message it = val m
                 /\ exists k, In k nameKeywords /\ contains m k)
  /\ (Hints.isOrderNumber it = true
      <-> exists m, message it = val m /\ m <> []
          /\ ((exists k, In k orderKeywords /\ contains m k)
              \/ exists r, rule it = val r /\ contains r (u "OrderNumber")))
  /\ (Hints.isFIO it = true -> selectedFamily it = Some NameFormat)
  /\ (Hints.isFIO it = false -> Hints.isOrderNumber it = true ->
      selectedFamily it = Some OrderNumber)
  /\ (Hints.isFIO it = false -> Hints.isOrderNumber it = false ->
      truthy (location it) = true -> selectedFamily it = Some GenericLocation)
  /\ (Hints.isFIO it = false -> Hints.isOrderNumber it = false ->
      truthy (location it) = false -> selectedFamily it = None)
  /\ (Hints.isFIO it = true ->
      Download.familyHint it = Download.fioDetailedHint (orElse (message it) []))
  /\ (Hints.isFIO it = false ->
      Download.familyHint it
      = match location it with
        | val (c :: r) => Download.locationDetailedHint (c :: r)
        | _ => []
        end).
Proof.
  split; [apply isFIO_spec|]. split; [apply isOrderNumber_spec|].
  unfold selectedFamily, Full.locationBadge, Download.familyHint.
  repeat split; intros.
  - now rewrite H.
  - now rewrite H, H0.
  - rewrite H, H0. apply truthy_val in H1 as [c [r ->]].
    repeat match goal with
           | |- familyOf (if ?c then _ else _) = _ => destruct c
           end; reflexivity.
  - rewrite H, H0. destruct (location it) as [| | [|c r]]; try reflexivity.
    discriminate H1.
  - now rewrite H.
  - now rewrite H.
Qed.

Lemma family_priority_witness :
  selectedFamily studentLower = Some NameFormat
  /\ selectedFamily orderIssue = Some OrderNumber.
Proof.
  split.
  - apply (proj1 (proj2 (proj2 (family_priority studentLower)))).
    vm_compute. reflexivity.
  - apply (proj1 (proj2 (proj2 (proj2 (family_priority orderIssue))))).
    + vm_compute. reflexivity.
    + vm_compute. reflexivity.
Defined.

(** ** Sub-rules of the name family *)

Section SubRules.

Import Hints.

Lemma fioDetailedHint_last_wins (m : str) :
  let lm := toLowerCase m in
  Download.fioDetailedHint m
  = if caseRule lm then Download.whereCase
    else if abbreviationRule lm then Download.whereAbbreviation
    else if supervisorRule lm then Download.whereSupervisor
    else if studentRule lm then Download.whereStudent
    else if nameRule lm then Download.whereAll
    else [].
Proof.
  cbv zeta.
  unfold Download.fioDetailedHint, caseRule, abbreviationRule, supervisorRule,
    studentRule, nameRule, notFoundRule.
  cbv zeta.
  set (lm := toLowerCase m).
  set (c := includes lm (u "падеж") || includes lm (u "падеже")).
  set (a := includes lm (u "сокращения") || includes lm (u "и.о.")
            || includes lm (u "и. о.")).
  set (sv := includes lm (u "руководителя") || includes lm (u "руководитель")).
  set (sd := includes lm (u "обучающегося") || includes lm (u "студент")).
  set (nf := includes lm (u "не найдено")).
  set (nm := includes lm (u "фио") || includes lm (u "фамилия")).
  clearbody c a sv sd nf nm.
  destruct c, a, nf, sv, sd, nm; vm_compute; reflexivity.
Qed.

Lemma getFIOHint_first_wins (m : str) (e : prop str) :
  let lm := toLowerCase m in
  getFIOHint m e
  = if studentRule lm then fioStudent
    else if supervisorRule lm then fioSupervisor
    else if abbreviationRule lm then fioAbbreviation
    else if caseRule lm then fioCase
    else if nameRule lm then
      if shownEvidence e && includes (orElse e []) (u "...")
      then u "Ищите в тексте: " ++ [34] ++ substring0 60 (orElse e [])
           ++ u "..." ++ [34]
      else fioAll
    else fioGeneric.
Proof.
  cbv zeta.
  unfold getFIOHint, caseRule, abbreviationRule, supervisorRule,
    studentRule, nameRule, notFoundRule.
  cbv zeta.
  set (lm := toLowerCase m).
  set (c := includes lm (u "падеж") || includes lm (u "падеже")).
  set (a := includes lm (u "сокращения") || includes lm (u "и.о.")
            || includes lm (u "и. о.")).
  set (sv := includes lm (u "руководителя") || includes lm (u "руководитель")).
  set (sd := includes lm (u "обучающегося") || includes lm (u "студент")).
  set (nf := includes lm (u "не найдено")).
  set (nm := includes lm (u "фио") || includes lm (u "фамилия")).
  clearbody c a sv sd nf nm.
  destruct nf, sd, sv, a, c, nm; cbv [andb orb]; reflexivity.
Qed.

End SubRules.

(** C7, as stated, fails: a message that triggers the "not found" + student
    sub-rule and the grammatical-case sub-rule gets the case hint alone in
    the export, and the student hint alone on the page. *)
Lemma sub_hints_counterexample :
  studentRule (toLowerCase twoRulesMessage) = true
  /\ caseRule (toLowerCase twoRulesMessage) = true
  /\ Hints.isFIO twoRulesIssue = true
  /\ Download.detailedHint twoRulesIssue = Download.whereCase
  /\ includes (Download.detailedHint twoRulesIssue) Download.whereStudent = false
  /\ Hints.getFIOHint twoRulesMessage undefined = Hints.fioStudent
  /\ includes (Hints.getFIOHint twoRulesMessage undefined) Hints.fioCase = false.
Proof. compute_each. Qed.

(** C7, amended. The sub-rules of the name family are tested one after the
    other, but their hints are not concatenated. In the export each
    triggered sub-rule replaces the hint, so the last triggered one wins, in
    the order student, supervisor, abbreviation, grammatical case, with the
    general name hint only when none fired. On the page getFIOHint returns at
    the first triggered sub-rule, in the same order. *)
Theorem sub_hints_one_wins (m : str) (e : prop str) :
  let lm := toLowerCase m in
  Download.fioDetailedHint m
  = (if caseRule lm then Download.whereCase
     else if abbreviationRule lm then Download.whereAbbreviation
     else if supervisorRule lm then Download.whereSupervisor
     else if studentRule lm then Download.whereStudent
     else if nameRule lm then Download.whereAll
     else [])
  /\ Hints.getFIOHint m e
     = (if studentRule lm then Hints.fioStudent
        else if supervisorRule lm then Hints.fioSupervisor
        else if abbreviationRule lm then Hints.fioAbbreviation
        else if caseRule lm then Hints.fioCase
        else if nameRule lm then
          if shownEvidence e && includes (orElse e []) (u "...")
          then u "Ищите в тексте: " ++ [34] ++ substring0 60 (orElse e [])
               ++ u "..." ++ [34]
          else Hints.fioAll
        else Hints.fioGeneric).
Proof.
  split; [apply fioDetailedHint_last_wins | apply getFIOHint_first_wins].
Qed.

(** ** The export of an empty report *)

(** C8, as stated, fails: with no issue the detailed issue section is left
    out of the export altogether, heading included, whereas the checklist
    keeps its heading; a report with one issue has both. *)
Lemma export_empty_counterexample :
  exportContains sampleEnv emptySession (u "ПОДРОБНЫЙ СПИСОК НАРУШЕНИЙ") = false
  /\ exportContains sampleEnv emptySession (u "ЧЕК-ЛИСТ ДЛЯ ИСПРАВЛЕНИЯ") = true
  /\ exportContains sampleEnv oneIssueSession (u "ПОДРОБНЫЙ СПИСОК НАРУШЕНИЙ") = true
  /\ exportContains sampleEnv oneIssueSession (u "ЧЕК-ЛИСТ ДЛЯ ИСПРАВЛЕНИЯ") = true.
Proof. compute_each. Qed.

(** C8, amended. The export of a report with no issue and no comment is, in
    this order: the header, the summary, the location distribution with the
    fixed line "Ошибки распределены по всему документу", the heading of the
    fix checklist with no item, and the fixed instructions; the detailed
    issue section contributes nothing. *)
Theorem export_empty_report (env : Download.Env) (st : Full.Session) (report : Report) :
  Full.lastReport st = Some report ->
  issuesOf report = [] ->
  Full.comments st = [] ->
  Download.downloadReportWithComments env st
  = Some (Download.header env st report
          ++ Download.summarySection report
          ++ (u "РАСПРЕДЕЛЕНИЕ ОШИБОК ПО ДОКУМЕНТУ:" ++ nl
              ++ Download.rule40 ++ nl
              ++ Buckets.spreadLine ++ nl
              ++ nl ++ Download.rule60 ++ nl ++ nl)
          ++ Download.checklistHeading
          ++ Download.footer)
  /\ Download.issuesSection (issuesOf report) = []
  /\ Download.checklistSection (issuesOf report) = Download.checklistHeading.
Proof.
  intros Hr Hi Hc. unfold Download.downloadReportWithComments.
  rewrite Hr, Hi, Hc.
  unfold Download.distributionSection, Download.issuesSection,
    Download.commentsSection, Download.checklistSection.
  cbn [Buckets.locationCounts fold_left mapi mapi_from List.concat].
  rewrite !app_nil_r, !app_nil_l.
  split; [|split; reflexivity].
  rewrite <- !app_assoc. reflexivity.
Qed.

Lemma export_empty_report_witness :
  Download.downloadReportWithComments sampleEnv emptySession
  = Some (Download.header sampleEnv emptySession emptyReport
          ++ Download.summarySection emptyReport
          ++ (u "РАСПРЕДЕЛЕНИЕ ОШИБОК ПО ДОКУМЕНТУ:" ++ nl
              ++ Download.rule40 ++ nl
              ++ Buckets.spreadLine ++ nl
              ++ nl ++ Download.rule60 ++ nl ++ nl)
          ++ Download.checklistHeading
          ++ Download.footer).
Proof.
  exact (proj1 (export_empty_report sampleEnv emptySession emptyReport
                  eq_refl eq_refl eq_refl)).
Defined.

(* ===================================================================== *)
(** * Further properties of the script *)
(* ===================================================================== *)

(** ** esc *)

Section EscFacts.

Lemma esc_cons (c : N) (s : str) :
  esc (c :: s)
  = (if c =? 38 then [38; 97; 109; 112; 59]
     else if c =? 60 then [38; 108; 116; 59]
     else if c =? 62 then [38; 103; 116; 59]
     else if c =? 34 then [38; 113; 117; 111; 116; 59]
     else if c =? 39 then [38; 35; 51; 57; 59]
     else [c]) ++ esc s.
Proof.
  unfold esc. cbn [flat_map].
  destruct (c =? 38); [reflexivity|]. destruct (c =? 60); [reflexivity|].
  destruct (c =? 62); [reflexivity|]. destruct (c =? 34); [reflexivity|].
  destruct (c =? 39); reflexivity.
Qed.

Ltac split_unit c :=
  destruct (N.eqb_spec c 38); [subst c|];
  [|destruct (N.eqb_spec c 60); [subst c|];
    [|destruct (N.eqb_spec c 62); [subst c|];
      [|destruct (N.eqb_spec c 34); [subst c|];
        [|destruct (N.eqb_spec c 39); [subst c|]]]]].

(** X1. The escaped text contains none of the characters < > double quote
    and quote, whatever the text was. *)
Theorem esc_no_markup (s : str) (c : N) :
  In c (esc s) -> c <> 60 /\ c <> 62 /\ c <> 34 /\ c <> 39.
Proof.
  induction s as [|d s IH]; [intros []|].
  rewrite esc_cons, in_app_iff. intros [H | H]; [|now apply IH].
  split_unit d; cbn [In] in H;
    repeat match goal with
           | H : _ \/ _ |- _ => destruct H as [H | H]
           | H : False |- _ => destruct H
           end; subst; repeat split; try discriminate; congruence.
Qed.

Lemma esc_no_markup_witness :
  ~ In 60 (esc (u "<b>a & b</b>")).
Proof.
  intros H. apply (esc_no_markup (u "<b>a & b</b>") 60) in H.
  destruct H as [H _]. now apply H.
Defined.

(** X2. esc loses nothing: two texts with the same escaped form are the same
    text. *)
Theorem esc_injective (s t : str) : esc s = esc t -> s = t.
Proof.
  revert t. induction s as [|c s IH]; intros [|d t] H.
  - reflexivity.
  - rewrite esc_cons in H. split_unit d; discriminate H.
  - rewrite esc_cons in H. split_unit c; discriminate H.
  - rewrite !esc_cons in H.
    split_unit c; split_unit d; cbn [app] in H;
      try discriminate H;
      injection H; intros; subst;
      first [congruence | f_equal; apply IH; assumption].
Qed.

Lemma esc_injective_witness : u "a<b" = u "a<b".
Proof. apply esc_injective. reflexivity. Defined.

End EscFacts.

(** ** trim *)

Section TrimFacts.

Lemma trimStart_idem (s : str) : trimStart (trimStart s) = trimStart s.
Proof.
  induction s as [|c s IH]; [reflexivity|]. cbn [trimStart].
  destruct (isWhiteSpace c) eqn:E; [exact IH|]. cbn [trimStart]. now rewrite E.
Qed.

Lemma trimStart_snoc (a : str) (c : N) :
  isWhiteSpace c = false -> trimStart (a ++ [c]) = trimStart a ++ [c].
Proof.
  intros Hc. induction a as [|d a IH]; cbn [app trimStart].
  - now rewrite Hc.
  - destruct (isWhiteSpace d); [exact IH | reflexivity].
Qed.

Lemma trimStart_head (s : str) :
  trimStart s = [] \/ exists c r, trimStart s = c :: r /\ isWhiteSpace c = false.
Proof.
  induction s as [|c s IH]; [now left|]. cbn [trimStart].
  destruct (isWhiteSpace c) eqn:E; [exact IH|]. right. now exists c, s.
Qed.

Lemma trimStart_fixed (c : N) (r : str) :
  isWhiteSpace c = false -> trimStart (c :: r) = c :: r.
Proof. intros H. cbn [trimStart]. now rewrite H. Qed.

(** The trimmed string is empty or starts with a character that is no white
    space. *)
Lemma trim_head (s : str) :
  trim s = [] \/ exists c r, trim s = c :: r /\ isWhiteSpace c = false.
Proof.
  unfold trim, trimEnd.
  destruct (trimStart_head s) as [-> | [c [r [-> Hc]]]]; [now left|].
  right. cbn [rev]. rewrite (trimStart_snoc _ _ Hc), rev_app_distr.
  cbn [rev app]. now exists c, (rev (trimStart (rev r))).
Qed.

Lemma trim_idem (s : str) : trim (trim s) = trim s.
Proof.
  assert (E : trimStart (trim s) = trim s).
  { destruct (trim_head s) as [-> | [c [r [-> Hc]]]]; [reflexivity|].
    now apply trimStart_fixed. }
  unfold trim at 1. rewrite E. unfold trim, trimEnd.
  now rewrite rev_involutive, trimStart_idem.
Qed.

End TrimFacts.

(** ** The expressions of the validator *)

Section FormatFacts.

Import Regex.

Lemma matches_within (P : N -> bool) (r : re) (s : str) :
  classesWithin P r -> matches r s -> forallb P s = true.
Proof.
  intros Hr Hm. induction Hm; cbn [classesWithin] in Hr; cbn [forallb];
    try reflexivity.
  - rewrite (Hr c H). reflexivity.
  - rewrite forallb_app. rewrite IHHm1 by tauto. rewrite IHHm2 by tauto.
    reflexivity.
  - apply IHHm. tauto.
  - apply IHHm. tauto.
  - rewrite forallb_app. rewrite IHHm1 by tauto. rewrite IHHm2 by tauto.
    reflexivity.
Qed.

Lemma matches_minLength (r : re) (s : str) :
  matches r s -> (minLength r <= List.length s)%nat.
Proof.
  intros Hm. induction Hm; cbn [minLength List.length]; try lia.
  rewrite length_app. lia.
Qed.

Lemma formatRegex_within : classesWithin formatHead formatRegex.
Proof.
  assert (D : forall c, digit c = true -> formatHead c = true).
  { intros c H. unfold formatHead. unfold digit in H. rewrite H.
    rewrite ?orb_true_r. reflexivity. }
  assert (S : forall c, (47 =? c) = true -> formatHead c = true).
  { intros c H. apply N.eqb_eq in H. subst c. reflexivity. }
  assert (O : forall c, oneOf (u "-/") c = true -> formatHead c = true).
  { intros c H. unfold oneOf in H. apply existsb_exists in H as [d [Hd E]].
    apply N.eqb_eq in E. subst d.
    destruct Hd as [<- | [<- | []]]; reflexivity. }
  cbn. tauto.
Qed.

Lemma formatHead_not_invalid (c : N) : formatHead c = true -> invalidChar c = false.
Proof.
  intros H. destruct (invalidChar c) eqn:E; [|reflexivity].
  unfold invalidChar, oneOf in E. apply existsb_exists in E as [d [Hd E]].
  apply N.eqb_eq in E. subst d.
  assert (A : forallb (fun c => negb (formatHead c)) invalidChars = true)
    by (vm_compute; reflexivity).
  rewrite forallb_forall in A. apply A in Hd. rewrite H in Hd. discriminate Hd.
Qed.

(** What a string that passes the format check looks like: at least four
    units, none of them one of the refused special characters. *)
Lemma format_ok (s : str) :
  fullMatch formatRegex s = true ->
  (4 <= List.length s)%nat /\ Regex.testClass invalidChar s = false.
Proof.
  intros H. apply fullMatch_spec in H. split.
  - apply matches_minLength in H. exact H.
  - apply (matches_within _ _ _ formatRegex_within) in H.
    unfold testClass. destruct (existsb invalidChar s) eqn:E; [|reflexivity].
    apply existsb_exists in E as [c [Hc E]].
    rewrite forallb_forall in H. apply H in Hc.
    apply formatHead_not_invalid in Hc. congruence.
Qed.

End FormatFacts.

(** ** More on the order-number validator *)

Section ValidatorMore.

Lemma trimStart_app_blank (pre x : str) :
  forallb isWhiteSpace pre = true -> trimStart (pre ++ x) = trimStart x.
Proof.
  induction pre as [|c pre IH]; [reflexivity|]. cbn [forallb app trimStart].
  intros H. apply andb_true_iff in H as [-> H]. now apply IH.
Qed.

Lemma trimStart_app_kept (s t : str) :
  trimStart s <> [] -> trimStart (s ++ t) = trimStart s ++ t.
Proof.
  induction s as [|c s IH]; [contradiction|]. cbn [app trimStart].
  destruct (isWhiteSpace c); [exact IH | reflexivity].
Qed.

Lemma forallb_rev {A : Type} (p : A -> bool) (l : list A) :
  forallb p (rev l) = forallb p l.
Proof.
  induction l as [|x l IH]; [reflexivity|]. cbn [rev forallb].
  rewrite forallb_app, IH. cbn [forallb]. rewrite andb_true_r. apply andb_comm.
Qed.

Lemma trim_padded (pre s post : str) :
  forallb isWhiteSpace pre = true -> forallb isWhiteSpace post = true ->
  trim (pre ++ s ++ post) = trim s.
Proof.
  intros Hpre Hpost. unfold trim. rewrite (trimStart_app_blank _ _ Hpre).
  destruct (list_eq_dec N.eq_dec (trimStart s) []) as [E | NE].
  - assert (B : forallb isWhiteSpace s = true).
    { clear - E. induction s as [|c s IH]; [reflexivity|].
      cbn [trimStart] in E. cbn [forallb].
      destruct (isWhiteSpace c); [now apply IH | discriminate E]. }
    rewrite E, trimStart_blank; [reflexivity|].
    now rewrite forallb_app, B, Hpost.
  - rewrite (trimStart_app_kept _ _ NE). unfold trimEnd.
    rewrite rev_app_distr, trimStart_app_blank; [reflexivity|].
    now rewrite forallb_rev.
Qed.

Lemma blank_branch_false (s : str) :
  trim s <> [] -> str_eqb s [] || str_eqb (trim s) [] = false.
Proof.
  intros H. destruct (str_eqb s [] || str_eqb (trim s) []) eqn:E; [|reflexivity].
  apply validate_blank_branch in E. contradiction.
Qed.

Lemma validate_by_trim (s t : str) :
  trim s = trim t -> validateOrderNumber s = validateOrderNumber t.
Proof.
  intros E. destruct (list_eq_dec N.eq_dec (trim t) []) as [B | NB].
  - rewrite !validate_on_blank; congruence.
  - unfold validateOrderNumber.
    rewrite !blank_branch_false by congruence. now rewrite E.
Qed.

Lemma validate_warnings (s : str) :
  trim s <> [] ->
  warnings (validateOrderNumber s)
  = if negb (Regex.fullMatch formatRegex (trim s)) then [formatWarning] else [].
Proof.
  intros H. unfold validateOrderNumber. now rewrite blank_branch_false.
Qed.

Lemma format_not_blank : Regex.fullMatch formatRegex [] = false.
Proof. vm_compute. reflexivity. Qed.

Lemma warnings_nil_iff_format (s : str) :
  warnings (validateOrderNumber s) = []
  <-> Regex.fullMatch formatRegex (trim s) = true.
Proof.
  destruct (list_eq_dec N.eq_dec (trim s) []) as [B | NB].
  - rewrite (validate_on_blank _ B), B, format_not_blank. cbn [warnings].
    split; discriminate.
  - rewrite (validate_warnings _ NB).
    destruct (Regex.fullMatch formatRegex (trim s)); cbn [negb]; split;
      congruence.
Qed.

Lemma format_gives_clean (s : str) :
  Regex.fullMatch formatRegex (trim s) = true ->
  validateOrderNumber s = {| isValid := true; errors := []; warnings := [] |}.
Proof.
  intros H. destruct (format_ok _ H) as [L C].
  assert (NB : trim s <> []) by (intros E; rewrite E in L; cbn in L; lia).
  unfold validateOrderNumber. rewrite (blank_branch_false _ NB), H, C.
  cbn [negb].
  destruct (N.of_nat (List.length (trim s)) <? 3) eqn:E; [|reflexivity].
  apply N.ltb_lt in E. lia.
Qed.

End ValidatorMore.

(** X3. White space around the order number never changes the verdict: the
    validator gives the same result for an input and for the same input
    padded with white space (and for its trimmed form). *)
Theorem validate_ignores_padding (pre s post : str) :
  forallb isWhiteSpace pre = true ->
  forallb isWhiteSpace post = true ->
  validateOrderNumber (pre ++ s ++ post) = validateOrderNumber s
  /\ validateOrderNumber (trim s) = validateOrderNumber s.
Proof.
  intros Hpre Hpost. split; apply validate_by_trim.
  - now apply trim_padded.
  - apply trim_idem.
Qed.

Lemma validate_ignores_padding_witness :
  validateOrderNumber (u "  " ++ u "12/2024" ++ u " ") = validateOrderNumber (u "12/2024").
Proof.
  apply (proj1 (validate_ignores_padding (u "  ") (u "12/2024") (u " ")
                  eq_refl eq_refl)).
Defined.

(** X4. An order number draws no warning exactly when its trimmed form
    passes the format check, and then it draws no error either: the result
    is valid, with both lists empty. *)
Theorem validate_clean_iff_format (s : str) :
  (warnings (validateOrderNumber s) = []
   <-> Regex.fullMatch formatRegex (trim s) = true)
  /\ (warnings (validateOrderNumber s) = [] ->
      validateOrderNumber s = {| isValid := true; errors := []; warnings := [] |}).
Proof.
  split; [apply warnings_nil_iff_format|].
  intros H. apply format_gives_clean. now apply warnings_nil_iff_format.
Qed.

Lemma validate_clean_iff_format_witness :
  validateOrderNumber (u "33.02-05/334")
  = {| isValid := true; errors := []; warnings := [] |}.
Proof.
  apply (proj2 (validate_clean_iff_format (u "33.02-05/334"))).
  vm_compute. reflexivity.
Defined.

(** X5. The "too short" error is reported exactly when the trimmed input has
    one or two characters; the validator reports at most two errors, all
    critical, and at most one warning, of severity warning. *)
Theorem validate_shape (s : str) :
  (In tooShortError (errors (validateOrderNumber s))
   <-> (1 <= List.length (trim s) <= 2)%nat)
  /\ Forall (fun e => severity e = val (u "critical")) (errors (validateOrderNumber s))
  /\ Forall (fun w => severity w = val (u "warning")) (warnings (validateOrderNumber s))
  /\ (List.length (errors (validateOrderNumber s)) <= 2)%nat
  /\ (List.length (warnings (validateOrderNumber s)) <= 1)%nat.
Proof.
  destruct (list_eq_dec N.eq_dec (trim s) []) as [B | NB].
  - rewrite (validate_on_blank _ B), B. cbn [errors warnings In List.length].
    repeat split; try lia; try tauto; repeat constructor.
  - rewrite (validate_warnings _ NB), (validate_errors _ NB).
    assert (L : (1 <= List.length (trim s))%nat)
      by (destruct (trim s); [contradiction | cbn; lia]).
    destruct (N.of_nat (List.length (trim s)) <? 3) eqn:E;
      [apply N.ltb_lt in E | apply N.ltb_ge in E];
      destruct (Regex.testClass invalidChar (trim s));
      destruct (Regex.fullMatch formatRegex (trim s));
      cbn [negb app In List.length];
      (split; [split; [try lia; intros [H | H]; try destruct H as [H | H];
                       try contradiction;
                       try (symmetry in H; now apply tooShort_not_invalidChars in H)
                      | try (intros _; now left); lia]|]);
      repeat split; try lia; repeat constructor.
Qed.

Section ValidatorIssues.

Lemma validationIssues_among (s : str) (e : Issue) :
  In e (validationIssues (validateOrderNumber s)) ->
  In e [missingWarning; tooShortError; invalidCharsError; formatWarning].
Proof.
  unfold validationIssues.
  destruct (list_eq_dec N.eq_dec (trim s) []) as [B | NB].
  - rewrite (validate_on_blank _ B). cbn [errors warnings app].
    generalize missingWarning, tooShortError, invalidCharsError, formatWarning.
    intros a b c d. cbn [In]. tauto.
  - rewrite (validate_warnings _ NB), (validate_errors _ NB).
    generalize missingWarning, tooShortError, invalidCharsError, formatWarning.
    intros a b c d.
    destruct (N.of_nat (List.length (trim s)) <? 3);
      destruct (Regex.testClass invalidChar (trim s));
      destruct (Regex.fullMatch formatRegex (trim s));
      cbn [negb app In]; tauto.
Qed.

End ValidatorIssues.

(** X6. Whatever the input, every issue the validator produces, rendered as
    an issue of a report, is taken by the order-number family (through its
    message, its rule identifier does not contain "OrderNumber"), gets the
    hint of its own sub-rule, and falls in no location bucket. *)
Theorem validator_issues_get_order_hints (s : str) (e : Issue) :
  In e (validationIssues (validateOrderNumber s)) ->
  selectedFamily e = Some OrderNumber
  /\ Buckets.locationName e = None
  /\ whenStr (rule e) (fun r => includes r (u "OrderNumber")) = false
  /\ In (e, Full.locationBadge e)
       [(missingWarning, Full.BadgeOrderNumber Hints.orderGeneric);
        (tooShortError, Full.BadgeOrderNumber Hints.orderShort);
        (invalidCharsError, Full.BadgeOrderNumber Hints.orderChars);
        (formatWarning,
         Full.BadgeOrderNumber (replaceNewlines (u "<br>") Hints.orderFormat))].
Proof.
  intros H. apply validationIssues_among in H.
  destruct H as [<- | [<- | [<- | [<- | []]]]].
  - split; [vm_compute; reflexivity|]. split; [vm_compute; reflexivity|].
    split; [vm_compute; reflexivity|]. left. apply (f_equal (pair _)). vm_compute. reflexivity.
  - split; [vm_compute; reflexivity|]. split; [vm_compute; reflexivity|].
    split; [vm_compute; reflexivity|]. right; left. apply (f_equal (pair _)). vm_compute. reflexivity.
  - split; [vm_compute; reflexivity|]. split; [vm_compute; reflexivity|].
    split; [vm_compute; reflexivity|]. right; right; left. apply (f_equal (pair _)).
    vm_compute. reflexivity.
  - split; [vm_compute; reflexivity|]. split; [vm_compute; reflexivity|].
    split; [vm_compute; reflexivity|]. right; right; right; left. apply (f_equal (pair _)).
    vm_compute. reflexivity.
Qed.

Lemma validator_issues_get_order_hints_witness :
  selectedFamily tooShortError = Some OrderNumber.
Proof.
  refine (proj1 (validator_issues_get_order_hints (u "ab") tooShortError _)).
  vm_compute. left. reflexivity.
Defined.

(** X7. The validation card says "passed" exactly when the trimmed order
    number passes the format check; otherwise it shows one card per error
    and one per warning, among them at least one warning. *)
Theorem validation_card_passed_iff (s : str) :
  (displayValidationResults (validateOrderNumber s) = [PassedCard]
   <-> Regex.fullMatch formatRegex (trim s) = true)
  /\ (Regex.fullMatch formatRegex (trim s) = false ->
      List.length (displayValidationResults (validateOrderNumber s))
      = (List.length (errors (validateOrderNumber s))
         + List.length (warnings (validateOrderNumber s)))%nat
      /\ warnings (validateOrderNumber s) <> []).
Proof.
  split.
  - split.
    + intros H. apply warnings_nil_iff_format.
      unfold displayValidationResults in H.
      destruct (errors (validateOrderNumber s)) as [|e es];
        destruct (warnings (validateOrderNumber s)) as [|w ws];
        trivial; discriminate H.
    + intros H. now rewrite (format_gives_clean _ H).
  - intros H.
    assert (W : warnings (validateOrderNumber s) <> []).
    { intros E. apply warnings_nil_iff_format in E. congruence. }
    split; [|exact W].
    unfold displayValidationResults.
    destruct (errors (validateOrderNumber s)) as [|e es];
      destruct (warnings (validateOrderNumber s)) as [|w ws];
      try contradiction; now rewrite length_app, !length_map.
Qed.

Lemma validation_card_passed_iff_witness :
  displayValidationResults (validateOrderNumber (u " 123/2024")) = [PassedCard].
Proof.
  apply (proj2 (proj1 (validation_card_passed_iff (u " 123/2024")))).
  vm_compute. reflexivity.
Defined.

(** ** More on the location buckets *)

Section BucketsMore.

Import Buckets.

Lemma locationCounts_fold (l : list Issue) :
  locationCounts l = fold_left bucketStep l [].
Proof. reflexivity. Qed.

Lemma fold_invariant (P : list (str * nat) -> Prop) (l : list Issue)
      (acc : list (str * nat)) :
  P acc ->
  (forall m issue, In issue l -> P m -> P (bucketStep m issue)) ->
  P (fold_left bucketStep l acc).
Proof.
  revert acc. induction l as [|issue l IH]; intros acc H0 Hstep; [exact H0|].
  cbn [fold_left]. apply IH.
  - apply Hstep; [now left | exact H0].
  - intros m i Hi. apply Hstep. now right.
Qed.

Lemma bump_keys (k k' : str) (m : list (str * nat)) :
  In k' (map fst (bump k m)) <-> k' = k \/ In k' (map fst m).
Proof.
  induction m as [|[k0 n] r IH]; cbn [bump].
  - cbn. intuition congruence.
  - destruct (str_eqb k k0) eqn:E.
    + apply str_eqb_eq in E. subst k0. cbn. intuition congruence.
    + cbn [map fst In]. rewrite IH. tauto.
Qed.

Lemma bump_NoDup (k : str) (m : list (str * nat)) :
  NoDup (map fst m) -> NoDup (map fst (bump k m)).
Proof.
  induction m as [|[k0 n] r IH]; cbn [bump]; intros H.
  - cbn. constructor; [intros [] | constructor].
  - destruct (str_eqb k k0) eqn:E; [exact H|].
    cbn [map fst] in *. inversion H as [|? ? Hin Hr]; subst.
    constructor; [|now apply IH].
    rewrite bump_keys. intros [-> | Hk]; [|contradiction].
    now rewrite str_eqb_refl in E.
Qed.

Lemma bump_positive (k : str) (m : list (str * nat)) :
  Forall (fun kn => (1 <= snd kn)%nat) m ->
  Forall (fun kn => (1 <= snd kn)%nat) (bump k m).
Proof.
  induction m as [|[k0 n] r IH]; cbn [bump]; intros H.
  - repeat constructor.
  - inversion H; subst. destruct (str_eqb k k0); constructor; cbn [snd] in *;
      try lia; auto.
Qed.

Lemma bump_sum (k : str) (m : list (str * nat)) :
  sumCounts (bump k m) = S (sumCounts m).
Proof.
  unfold sumCounts. induction m as [|[k0 n] r IH]; [reflexivity|]. cbn [bump].
  destruct (str_eqb k k0); cbn [fold_right snd] in *; lia.
Qed.

Lemma bump_not_nil (k : str) (m : list (str * nat)) : bump k m <> [].
Proof. destruct m as [|[k0 n] r]; cbn [bump]; [|destruct (str_eqb k k0)]; discriminate. Qed.

Lemma locationName_located (issue : Issue) :
  located issue = true <-> exists k, locationName issue = Some k.
Proof.
  unfold located, locationName.
  destruct (location issue) as [| | [|c r]]; cbn [truthy]; split;
    try discriminate; try (intros [k H]; discriminate H).
  - intros _. eexists. reflexivity.
  - reflexivity.
Qed.

Lemma sum_fold (l : list Issue) (acc : list (str * nat)) :
  sumCounts (fold_left bucketStep l acc)
  = (sumCounts acc + List.length (filter located l))%nat.
Proof.
  revert acc. induction l as [|issue l IH]; intros acc; cbn [fold_left filter].
  - cbn [List.length]. lia.
  - rewrite IH. unfold bucketStep.
    destruct (located issue) eqn:E.
    + apply locationName_located in E as [k ->]. rewrite bump_sum.
      cbn [List.length]. lia.
    + destruct (locationName issue) as [k|] eqn:L; [|reflexivity].
      assert (T : located issue = true) by (apply locationName_located; eauto).
      congruence.
Qed.

Lemma fold_not_nil (l : list Issue) (acc : list (str * nat)) :
  acc <> [] -> fold_left bucketStep l acc <> [].
Proof.
  intros H. apply fold_invariant; [exact H|].
  intros m issue _ Hm. unfold bucketStep.
  destruct (locationName issue); [apply bump_not_nil | exact Hm].
Qed.

Lemma locationCounts_nil_iff (l : list Issue) :
  locationCounts l = [] <-> forall issue, In issue l -> located issue = false.
Proof.
  rewrite locationCounts_fold. induction l as [|issue l IH]; cbn [fold_left].
  - split; [intros _ i [] | reflexivity].
  - unfold bucketStep at 2. destruct (located issue) eqn:E.
    + destruct (proj1 (locationName_located issue) E) as [k ->]. split.
      * intros H. exfalso. revert H. apply fold_not_nil, bump_not_nil.
      * intros H. rewrite (H issue (or_introl eq_refl)) in E. discriminate E.
    + destruct (locationName issue) as [k|] eqn:L.
      * assert (T : located issue = true) by (apply locationName_located; eauto).
        congruence.
      * rewrite IH. split.
        -- intros H i [<- | Hi]; [exact E | now apply H].
        -- intros H i Hi. apply H. now right.
Qed.

End BucketsMore.

Section BucketsShape.

Import Buckets.

Lemma countOf_In (k : str) (m : list (str * nat)) :
  countOf k m <> 0%nat -> In (k, countOf k m) m.
Proof.
  induction m as [|[k0 n] r IH]; cbn [countOf]; [contradiction|].
  destruct (str_eqb k k0) eqn:E.
  - apply str_eqb_eq in E. subst k0. intros _. now left.
  - intros H. right. now apply IH.
Qed.

Lemma In_countOf (k : str) (n : nat) (m : list (str * nat)) :
  NoDup (map fst m) -> In (k, n) m -> countOf k m = n.
Proof.
  induction m as [|[k0 n0] r IH]; [intros _ []|].
  cbn [map fst countOf]. intros Hnd [E | Hin].
  - injection E as -> ->. now rewrite str_eqb_refl.
  - inversion Hnd as [|? ? Hk Hr]; subst.
    destruct (str_eqb k k0) eqn:E.
    + apply str_eqb_eq in E. subst k0. exfalso. apply Hk.
      apply in_map_iff. now exists (k, n).
    + now apply IH.
Qed.

Lemma locationCounts_NoDup (l : list Issue) : NoDup (map fst (locationCounts l)).
Proof.
  rewrite locationCounts_fold. apply fold_invariant; [constructor|].
  intros m issue _ H. unfold bucketStep.
  destruct (locationName issue); [now apply bump_NoDup | exact H].
Qed.

Lemma locationCounts_positive (l : list Issue) :
  Forall (fun kn => (1 <= snd kn)%nat) (locationCounts l).
Proof.
  rewrite locationCounts_fold. apply fold_invariant; [constructor|].
  intros m issue _ H. unfold bucketStep.
  destruct (locationName issue); [now apply bump_positive | exact H].
Qed.

End BucketsShape.

Lemma sampleIssues_plain : Forall plainLabel sampleIssues.
Proof.
  repeat (apply Forall_cons; [vm_compute; first [reflexivity | exact I]|]).
  apply Forall_nil.
Qed.

(** X8. For issues whose labels are not names inherited from
    [Object.prototype], the distribution lists every label once, and lists
    the pair (label, n) exactly when n >= 1 issues of the report were given
    that label. *)
Theorem buckets_exact (l : list Issue) :
  Forall plainLabel l ->
  NoDup (map fst (Buckets.locationCounts l))
  /\ (forall k n,
        In (k, n) (Buckets.locationCounts l)
        <-> (1 <= n)%nat /\ n = List.length (filter (labelled k) l)).
Proof.
  intros _. split; [apply locationCounts_NoDup|]. intros k n. split.
  - intros H. split.
    + pose proof (locationCounts_positive l) as P.
      rewrite Forall_forall in P. now apply (P (k, n)).
    + rewrite <- locationCounts_count. symmetry.
      apply In_countOf; [apply locationCounts_NoDup | exact H].
  - intros [Hn ->]. rewrite <- locationCounts_count.
    apply countOf_In. rewrite locationCounts_count. lia.
Qed.

Lemma buckets_exact_witness :
  NoDup (map fst (Buckets.locationCounts sampleIssues)).
Proof.
  exact (proj1 (buckets_exact sampleIssues sampleIssues_plain)).
Defined.

(** X9. Under the same condition the counts of the distribution add up to
    the number of issues that carry a location; issues without one are
    counted nowhere. *)
Theorem buckets_total (l : list Issue) :
  Forall plainLabel l ->
  sumCounts (Buckets.locationCounts l) = List.length (filter located l).
Proof.
  intros _. rewrite locationCounts_fold, sum_fold. reflexivity.
Qed.

Lemma buckets_total_witness :
  sumCounts (Buckets.locationCounts sampleIssues) = 3%nat.
Proof.
  exact (buckets_total sampleIssues sampleIssues_plain).
Defined.

(** X10. Under the same condition the page and the export print the fixed
    line "Ошибки распределены по всему документу" exactly when no issue of
    the report carries a location; otherwise the page shows one row per
    bucket. *)
Theorem spread_line_iff (l : list Issue) :
  Forall plainLabel l ->
  (Buckets.getLocationSummary l = Buckets.Spread Buckets.spreadLine
   <-> forall issue, In issue l -> located issue = false)
  /\ ((forall issue, In issue l -> located issue = false) ->
      Download.distributionSection l
      = u "РАСПРЕДЕЛЕНИЕ ОШИБОК ПО ДОКУМЕНТУ:" ++ nl ++ Download.rule40 ++ nl
        ++ Buckets.spreadLine ++ nl ++ nl ++ Download.rule60 ++ nl ++ nl)
  /\ ((exists issue, In issue l /\ located issue = true) ->
      exists rows, Buckets.getLocationSummary l = Buckets.Rows rows
                   /\ List.length rows = List.length (Buckets.locationCounts l)
                   /\ rows <> []).
Proof.
  intros _.
  assert (A : Buckets.getLocationSummary l = Buckets.Spread Buckets.spreadLine
              <-> Buckets.locationCounts l = []).
  { unfold Buckets.getLocationSummary.
    destruct (Buckets.locationCounts l); split; congruence. }
  split; [now rewrite A, locationCounts_nil_iff|]. split.
  - intros H. apply locationCounts_nil_iff in H.
    unfold Download.distributionSection. rewrite H.
    now rewrite <- !app_assoc.
  - intros [issue [Hin Hl]].
    unfold Buckets.getLocationSummary.
    destruct (Buckets.locationCounts l) as [|p m] eqn:E.
    + rewrite (proj1 (locationCounts_nil_iff l) E issue Hin) in Hl. discriminate Hl.
    + eexists. split; [reflexivity|]. split; [apply length_map|].
      discriminate.
Qed.

Lemma spread_line_iff_witness :
  Buckets.getLocationSummary [infoIssue; bareIssue] = Buckets.Spread Buckets.spreadLine.
Proof.
  refine (proj2 (proj1 (spread_line_iff [infoIssue; bareIssue] _)) _).
  - repeat (apply Forall_cons; [vm_compute; first [reflexivity | exact I]|]).
    apply Forall_nil.
  - intros issue [<- | [<- | []]]; vm_compute; reflexivity.
Defined.

(** ** More on renderReport *)

Section RenderMore.

Lemma mapi_from_length {A B : Type} (f : A -> nat -> B) (l : list A) (i : nat) :
  List.length (mapi_from i f l) = List.length l.
Proof.
  revert i. induction l as [|x l IH]; intros i; [reflexivity|].
  cbn [mapi_from List.length]. now rewrite IH.
Qed.

Lemma mapi_from_map {A B C : Type} (g : B -> C) (f : A -> nat -> B)
      (l : list A) (i : nat) :
  map g (mapi_from i f l) = mapi_from i (fun x j => g (f x j)) l.
Proof.
  revert i. induction l as [|x l IH]; intros i; [reflexivity|].
  cbn [mapi_from map]. now rewrite IH.
Qed.

Lemma mapi_from_index {A : Type} (l : list A) (i : nat) :
  mapi_from i (fun _ j => j) l = seq i (List.length l).
Proof.
  revert i. induction l as [|x l IH]; intros i; [reflexivity|].
  cbn [mapi_from List.length seq]. now rewrite IH.
Qed.

Lemma mapi_from_const {A B : Type} (f : A -> B) (l : list A) (i : nat) :
  mapi_from i (fun x _ => f x) l = map f l.
Proof.
  revert i. induction l as [|x l IH]; intros i; [reflexivity|].
  cbn [mapi_from map]. now rewrite IH.
Qed.

Lemma In_mapi_from {A B : Type} (f : A -> nat -> B) (l : list A) (i : nat) (y : B) :
  In y (mapi_from i f l) -> exists x j, In x l /\ y = f x j.
Proof.
  revert i. induction l as [|x l IH]; intros i; [intros []|].
  cbn [mapi_from]. intros [<- | H].
  - exists x, i. split; [now left | reflexivity].
  - destruct (IH _ H) as [x' [j [Hx E]]]. exists x', j. split; [now right | exact E].
Qed.

Lemma mapi_from_In {A B : Type} (f : A -> nat -> B) (l : list A) (i : nat) (x : A) :
  In x l -> exists j, In (f x j) (mapi_from i f l).
Proof.
  revert i. induction l as [|x' l IH]; intros i; [intros []|].
  cbn [mapi_from]. intros [-> | H].
  - exists i. now left.
  - destruct (IH (S i) H) as [j Hj]. exists j. now right.
Qed.

Lemma filtered_length (f : str) (l : list Issue) :
  (List.length (filtered f l) <= List.length l)%nat.
Proof. apply filter_length_le. Qed.

Lemma filtered_nil_not_all (f : str) (l : list Issue) :
  l <> [] -> filtered f l = [] -> f <> u "all".
Proof.
  intros Hl Hf ->. rewrite filtered_all in Hf. contradiction.
Qed.

End RenderMore.

(** X11. The issue list of the page has three states: "Нарушений не
    найдено" exactly when the report has no issue; the note that the filter
    matches nothing when there are issues but none passes the filter, which
    never happens under "all"; and otherwise one card per visible issue. The
    counter "shown n of m" always has n <= m, with n = m under "all". *)
Theorem page_states (report : Report) (st : Full.Session) :
  let f := Full.currentFilter st in
  let l := issuesOf report in
  let v := snd (Full.renderReport report st) in
  (Full.viewIssues v = Full.NoIssues <-> l = [])
  /\ (l <> [] -> filtered f l = [] ->
      Full.viewIssues v = Full.NothingForFilter (filterLabel f) /\ f <> u "all")
  /\ (filtered f l <> [] ->
      Full.viewIssues v = Full.Cards (mapi Full.renderIssue (filtered f l)))
  /\ (Full.viewShown v <= Full.viewOutOf v)%nat
  /\ (f = u "all" -> Full.viewShown v = Full.viewOutOf v).
Proof.
  cbv zeta. unfold Full.renderReport.
  cbn [snd Full.viewIssues Full.viewShown Full.viewOutOf Full.currentFilter].
  set (f := Full.currentFilter st). set (l := issuesOf report).
  split.
  { destruct l as [|i l']; [now split|].
    destruct (filtered f (i :: l')); split; discriminate. }
  split.
  { intros Hl Hf. split; [|now apply (filtered_nil_not_all f l)].
    destruct l as [|i l']; [contradiction|]. now rewrite Hf. }
  split.
  { intros Hf. destruct l as [|i l']; [now cbn in Hf|].
    destruct (filtered f (i :: l')); [contradiction | reflexivity]. }
  split; [apply filtered_length|].
  intros ->. now rewrite filtered_all.
Qed.

Lemma page_states_witness :
  Full.viewIssues
    (snd (Full.renderReport reportWithoutTotal
            {| Full.chosen := None; Full.lastReport := None; Full.comments := [];
               Full.currentFilter := u "critical" |}))
  = Full.NothingForFilter (filterLabel (u "critical")).
Proof.
  refine (proj1 (proj1 (proj2 (page_states reportWithoutTotal _)) _ _)).
  - discriminate.
  - vm_compute. reflexivity.
Defined.

Lemma cards_of_list (l : list Issue) :
  let cards := mapi Full.renderIssue l in
  List.length cards = List.length l
  /\ map Full.cardIndex cards = seq 0 (List.length l)
  /\ map Full.cardMessage cards
     = map (fun it => esc (orElse (message it) (u "Нарушение"))) l
  /\ Forall (fun c => In (Full.cardDot c)
                         [u "critical"; u "warning"; u "info"; u "ok"]) cards.
Proof.
  cbv zeta. unfold mapi. split; [apply mapi_from_length|]. split.
  { rewrite mapi_from_map. cbn [Full.renderIssue Full.cardIndex].
    apply mapi_from_index. }
  split.
  { rewrite mapi_from_map. cbn [Full.renderIssue Full.cardMessage].
    apply mapi_from_const. }
  apply Forall_forall. intros c Hc.
  destruct (In_mapi_from _ _ _ _ Hc) as [it [i [_ ->]]].
  cbn [Full.renderIssue Full.cardDot].
  unfold dotClass.
  destruct (str_eqb _ (u "critical")) eqn:E1.
  { apply str_eqb_eq in E1. rewrite E1. cbn [orb]. now left. }
  destruct (str_eqb _ (u "warning")) eqn:E2.
  { apply str_eqb_eq in E2. rewrite E2. cbn [orb]. right; now left. }
  destruct (str_eqb _ (u "info")) eqn:E3.
  { apply str_eqb_eq in E3. rewrite E3. cbn [orb]. right; right; now left. }
  cbn [orb]. right; right; right; now left.
Qed.

(** X12. When the page shows cards, they follow the visible issues one to
    one and in the order of the report: there are as many cards as the
    counter says, card number i (from 0) carries index i and the escaped
    message of the i-th visible issue (or "Нарушение" when it has none), and
    each card's class is one of critical, warning, info, ok. *)
Theorem cards_follow_issues (report : Report) (st : Full.Session)
        (cards : list Full.IssueCard) :
  let v := snd (Full.renderReport report st) in
  let shown := filtered (Full.currentFilter st) (issuesOf report) in
  Full.viewIssues v = Full.Cards cards ->
  List.length cards = Full.viewShown v
  /\ map Full.cardIndex cards = seq 0 (Full.viewShown v)
  /\ map Full.cardMessage cards
     = map (fun it => esc (orElse (message it) (u "Нарушение"))) shown
  /\ Forall (fun c => In (Full.cardDot c)
                         [u "critical"; u "warning"; u "info"; u "ok"]) cards.
Proof.
  cbv zeta. unfold Full.renderReport.
  cbn [snd Full.viewIssues Full.viewShown Full.currentFilter].
  intros H.
  assert (E : cards = mapi Full.renderIssue
                        (filtered (Full.currentFilter st) (issuesOf report))).
  { destruct (issuesOf report) as [|i l']; [discriminate H|].
    destruct (filtered (Full.currentFilter st) (i :: l')); [discriminate H|].
    now injection H as <-. }
  rewrite E. apply cards_of_list.
Qed.

Lemma cards_follow_issues_witness :
  map Full.cardIndex (mapi Full.renderIssue [warningIssue; infoIssue]) = [0%nat; 1%nat].
Proof.
  refine (proj1 (proj2 (cards_follow_issues reportWithoutTotal
                          {| Full.chosen := None; Full.lastReport := None;
                             Full.comments := []; Full.currentFilter := u "all" |}
                          (mapi Full.renderIssue [warningIssue; infoIssue]) _))).
  vm_compute. reflexivity.
Defined.

Section TwoScripts.

Lemma forget_renderIssue (it : Issue) (i : nat) :
  forgetCard (Full.renderIssue it i) = Reduced.renderIssue it i.
Proof. reflexivity. Qed.

Lemma forget_cards (l : list Issue) :
  map forgetCard (mapi Full.renderIssue l) = mapi Reduced.renderIssue l.
Proof. unfold mapi. now rewrite mapi_from_map. Qed.

Lemma forget_renderReport (report : Report) (st : Full.Session) :
  Reduced.renderReport report (forgetSession st)
  = (forgetSession (fst (Full.renderReport report st)),
     forgetView (snd (Full.renderReport report st))).
Proof.
  unfold Reduced.renderReport, Full.renderReport, forgetSession, forgetView.
  cbn [fst snd Full.chosen Full.lastReport Full.currentFilter
       Reduced.currentFilter Full.viewProfile Full.viewTotal Full.viewCritical
       Full.viewWarning Full.viewInfo Full.viewShown Full.viewOutOf
       Full.viewIssues].
  f_equal. f_equal.
  destruct (issuesOf report) as [|i l']; [reflexivity|].
  destruct (filtered (Full.currentFilter st) (i :: l')) as [|j s'];
    [reflexivity|].
  cbn [forgetArea]. now rewrite forget_cards.
Qed.

End TwoScripts.

(** X13. The two scripts agree: for every report and session, the page of
    the reduced script is the page of the full script with the location
    summary, the evidence blocks and the hint badges left out, and the same
    holds after a click on a filter chip. *)
Theorem reduced_is_projection (report : Report) (st : Full.Session) (f : str) :
  Reduced.renderReport report (forgetSession st)
  = (forgetSession (fst (Full.renderReport report st)),
     forgetView (snd (Full.renderReport report st)))
  /\ Reduced.clickFilter f (forgetSession st)
     = option_map (fun p => (forgetSession (fst p), forgetView (snd p)))
                  (Full.clickFilter f st).
Proof.
  split; [apply forget_renderReport|].
  unfold Reduced.clickFilter, Full.clickFilter.
  cbn [forgetSession Reduced.lastReport Full.lastReport Reduced.chosen
       Reduced.currentFilter Full.chosen Full.comments Full.currentFilter].
  destruct (Full.lastReport st) as [r|]; [|reflexivity].
  cbn [option_map]. f_equal.
  exact (forget_renderReport r
           {| Full.chosen := Full.chosen st; Full.lastReport := Some r;
              Full.comments := Full.comments st; Full.currentFilter := f |}).
Qed.

(** X14. For an issue whose severity is absent or one of critical, warning,
    info, the entry of the export is labelled with the capitals of the label
    the page gives the same issue. *)
Theorem export_label_is_page_label (issue : Issue) (i : nat) :
  severityInModel issue ->
  exists rest,
    Download.issueEntry issue i
    = ofNat (i + 1) ++ u ". ["
      ++ toUpperCase (Full.cardLabel (Full.renderIssue issue i)) ++ rest.
Proof.
  intros H. unfold Download.issueEntry. cbv zeta.
  cbn [Full.renderIssue Full.cardLabel].
  assert (E : sevLabel (toLowerCase (orElse (severity issue) (u "info")))
              = sevLabel (orElse (severity issue) (u "info"))).
  { unfold severityInModel in H. destruct (severity issue) as [| | s].
    - vm_compute. reflexivity.
    - vm_compute. reflexivity.
    - destruct H as [-> | [-> | ->]]; vm_compute; reflexivity. }
  rewrite E. eexists. reflexivity.
Qed.

Lemma export_label_is_page_label_witness :
  exists rest,
    Download.issueEntry warningIssue 0
    = ofNat 1 ++ u ". ["
      ++ toUpperCase (Full.cardLabel (Full.renderIssue warningIssue 0)) ++ rest.
Proof.
  apply (export_label_is_page_label warningIssue 0).
  right; left. reflexivity.
Defined.

(** ** The page *)

Section PageFacts.

Import Full Page.

Lemma view_by_filter (report : Report) (st st' : Session) :
  currentFilter st = currentFilter st' ->
  snd (renderReport report st) = snd (renderReport report st').
Proof. intros E. unfold renderReport. cbn [snd currentFilter]. now rewrite E. Qed.

Lemma gate_accepts (name : str) :
  negb (endsWith (toLowerCase name) (u ".docx"))
  && negb (endsWith (toLowerCase name) (u ".pdf")) = false ->
  accepted name = true.
Proof.
  unfold accepted.
  destruct (endsWith (toLowerCase name) (u ".docx"));
    destruct (endsWith (toLowerCase name) (u ".pdf")); cbn; congruence.
Qed.

Lemma dataFilter_state (c : Chip) : FilterState (dataFilter c).
Proof. destruct c; cbn [dataFilter]; unfold FilterState; tauto. Qed.

Lemma addComment_comments (value now : str) (st : Session) :
  (trim value = [] /\ addComment value now st = st)
  \/ (trim value <> []
      /\ comments (addComment value now st)
         = comments st ++ [{| text := trim value; timestamp := now |}]
      /\ chosen (addComment value now st) = chosen st
      /\ lastReport (addComment value now st) = lastReport st
      /\ currentFilter (addComment value now st) = currentFilter st).
Proof.
  unfold addComment. destruct (trim value) as [|c r]; [now left|].
  right. repeat split. discriminate.
Qed.

Lemma addComment_ok (value now : str) (st : Session) :
  Forall commentOk (comments st) ->
  Forall commentOk (comments (addComment value now st)).
Proof.
  intros H. destruct (addComment_comments value now st) as [[_ ->] | [NE [-> _]]];
    [exact H|].
  apply Forall_app. split; [exact H|]. constructor; [|constructor].
  split; cbn [text]; [exact NE | apply trim_idem].
Qed.

Lemma invariant_reset (ui : Ui) : pageInvariant (resetUI ui).
Proof.
  unfold pageInvariant, resetUI. cbv zeta.
  cbn [session area Full.resetUI chosen comments currentFilter lastReport].
  split; [discriminate|]. split; [constructor|].
  split; [now left|]. unfold renderEmpty. discriminate.
Qed.

Lemma invariant_shown (ui : Ui) (st' : Session) (rd cd : bool) (m : str) :
  let st := session ui in
  (forall name, chosen st = Some name -> accepted name = true) ->
  Forall commentOk (comments st) ->
  chosen st' = chosen st ->
  comments st' = comments st ->
  FilterState (currentFilter st') ->
  pageInvariant
    {| session := st'; runDisabled := rd; clearDisabled := cd; meta := m;
       area := AreaReport (snd (renderReport (shownReport st') st'))
                          (renderComments (comments st')) |}.
Proof.
  cbv zeta. intros Hc Hk Ec Em Hf. unfold pageInvariant. cbv zeta.
  cbn [session area]. rewrite Ec, Em.
  split; [exact Hc|]. split; [exact Hk|]. split; [exact Hf|].
  intros v cl E. injection E as <- <-. split; reflexivity.
Qed.

Lemma invariant_empty (ui : Ui) (st' : Session) (rd cd : bool) (m t : str) :
  let st := session ui in
  (forall name, chosen st = Some name -> accepted name = true) ->
  Forall commentOk (comments st) ->
  chosen st' = chosen st ->
  comments st' = comments st ->
  FilterState (currentFilter st') ->
  pageInvariant
    {| session := st'; runDisabled := rd; clearDisabled := cd; meta := m;
       area := renderEmpty t |}.
Proof.
  cbv zeta. intros Hc Hk Ec Em Hf. unfold pageInvariant. cbv zeta.
  cbn [session area]. rewrite Ec, Em.
  split; [exact Hc|]. split; [exact Hk|]. split; [exact Hf|].
  unfold renderEmpty. discriminate.
Qed.

Lemma invariant_step (ui : Ui) (e : Event) :
  pageInvariant ui -> pageInvariant (step ui e).
Proof.
  intros Inv. pose proof Inv as [Hc [Hk [Hf Ha]]]. cbv zeta in *.
  destruct e as [| f | | r | c | value now]; cbn [step].
  - unfold clearClick. destruct (clearDisabled ui); [exact Inv|].
    apply invariant_reset.
  - unfold fileChange. destruct f as [f|]; [|exact Inv]. cbv zeta.
    destruct (negb (endsWith (toLowerCase (name f)) (u ".docx"))
              && negb (endsWith (toLowerCase (name f)) (u ".pdf"))) eqn:G;
      unfold pageInvariant; cbv zeta;
      cbn [session area chosen comments currentFilter lastReport];
      (split; [|split; [exact Hk|split; [exact Hf|unfold renderEmpty; discriminate]]]).
    + discriminate.
    + intros n E. injection E as <-. now apply gate_accepts.
  - destruct (runDisabled ui); [exact Inv|]. unfold runClick.
    destruct (chosen (session ui)) eqn:C; [|exact Inv].
    unfold pageInvariant. cbv zeta. cbn [session area].
    split; [now rewrite C|]. split; [exact Hk|]. split; [exact Hf|]. discriminate.
  - unfold runSettled. cbv zeta.
    destruct r as [e | status body | report | | e];
      unfold withSession, renderFalsy, renderReport;
      cbn [session meta area runDisabled clearDisabled].
    + now apply (invariant_empty ui).
    + now apply (invariant_empty ui).
    + now apply (invariant_shown ui
                   {| chosen := chosen (session ui); lastReport := Some report;
                      comments := comments (session ui);
                      currentFilter := currentFilter (session ui) |}).
    + now apply (invariant_shown ui
                   {| chosen := chosen (session ui); lastReport := None;
                      comments := comments (session ui);
                      currentFilter := currentFilter (session ui) |}).
    + now apply (invariant_empty ui).
  - unfold filterClick. destruct (area ui) as [t | | v cl] eqn:A; try exact Inv.
    unfold clickFilter. cbn [lastReport].
    destruct (lastReport (session ui)) as [report|] eqn:L;
      unfold withSession, renderFalsy, renderReport;
      cbn [session meta area runDisabled clearDisabled chosen comments
           currentFilter lastReport].
    + apply (invariant_shown ui
               {| chosen := chosen (session ui); lastReport := Some report;
                  comments := comments (session ui);
                  currentFilter := dataFilter c |}); trivial.
      apply dataFilter_state.
    + apply (invariant_shown ui
               {| chosen := chosen (session ui); lastReport := None;
                  comments := comments (session ui);
                  currentFilter := dataFilter c |}); trivial.
      apply dataFilter_state.
  - unfold commentClick. destruct (area ui) as [t | | v cl] eqn:A; try exact Inv.
    destruct (Ha v cl eq_refl) as [V _].
    unfold pageInvariant, withSession. cbv zeta. cbn [session area].
    destruct (addComment_comments value now (session ui))
      as [[_ E] | [_ [Ecm [Ech [Elr Ecf]]]]].
    + rewrite E. split; [exact Hc|]. split; [exact Hk|]. split; [exact Hf|].
      intros v' cl' E'. injection E' as <- <-. split; [exact V | reflexivity].
    + split; [now rewrite Ech|]. split; [now apply addComment_ok|].
      split; [now rewrite Ecf|].
      intros v' cl' E'. injection E' as <- <-. split; [|reflexivity].
      rewrite V. unfold shownReport. rewrite Elr.
      apply view_by_filter. now rewrite Ecf.
Qed.

(** The invariant holds after every sequence of events. *)
Lemma invariant_run (events : list Event) : pageInvariant (run events).
Proof.
  unfold run. generalize (invariant_reset declared).
  generalize (resetUI declared) as ui.
  induction events as [|e events IH]; intros ui H; [exact H|].
  cbn [fold_left]. apply IH. now apply invariant_step.
Qed.

End PageFacts.

(** X15. Whatever the user does, the file the page holds, and so the file a
    click on the run button sends, has a name that ends in .docx or .pdf
    (in any letter case). *)
Theorem only_accepted_files (events : list Page.Event) (name : str) :
  Full.chosen (Page.session (Page.run events)) = Some name
  \/ Page.requestOf (Page.run events) = Some name ->
  accepted name = true.
Proof.
  destruct (invariant_run events) as [Hc _]. cbv zeta in Hc.
  intros [H | H]; [now apply Hc|].
  unfold Page.requestOf in H.
  destruct (Page.runDisabled (Page.run events)); [discriminate H | now apply Hc].
Qed.

Lemma only_accepted_files_witness : accepted (u "Диплом.DOCX") = true.
Proof.
  apply (only_accepted_files
           [Page.FileChange
              (Some {| Page.name := u "Диплом.DOCX"; Page.size := 20480 |})]).
  right. vm_compute. reflexivity.
Defined.

(** X16. Whatever the user does, every stored comment has a text that is not
    empty and carries no white space at either end. *)
Theorem comments_are_trimmed (events : list Page.Event) :
  Forall commentOk (Full.comments (Page.session (Page.run events))).
Proof.
  destruct (invariant_run events) as [_ [Hk _]]. exact Hk.
Qed.



(** A body of 0, false or the empty string is drawn as a report with nothing
    in it, while no report is stored: the download alerts. *)
Example falsy_body_is_shown_not_stored :
  let ui := Page.run [Page.FileChange
                        (Some {| Page.name := u "a.pdf"; Page.size := 1 |});
                      Page.RunClick; Page.RunSettled Page.ParsedFalsy] in
  (exists v cl, Page.area ui = Page.AreaReport v cl
                /\ Full.viewIssues v = Full.NoIssues)
  /\ Download.downloadReportWithComments sampleEnv (Page.session ui) = None.
Proof.
  cbv zeta. split; [|vm_compute; reflexivity].
  eexists. eexists. split; vm_compute; reflexivity.
Qed.

(** X18. Comments are dropped by the clear button only: every other event
    keeps the stored comments, in their order, and only adding a comment
    appends one at the end; in particular choosing another file or receiving
    a new report leaves the comments in place. *)
Theorem comments_append_only (ui : Page.Ui) (e : Page.Event) :
  e <> Page.ClearClick ->
  exists extra,
    Full.comments (Page.session (Page.step ui e))
    = Full.comments (Page.session ui) ++ extra
    /\ (List.length extra <= 1)%nat
    /\ ((forall value now, e <> Page.CommentClick value now) -> extra = []).
Proof.
  intros Hne.
  assert (Same : forall ui',
             Full.comments (Page.session ui') = Full.comments (Page.session ui) ->
             exists extra,
               Full.comments (Page.session ui')
               = Full.comments (Page.session ui) ++ extra
               /\ (List.length extra <= 1)%nat
               /\ ((forall value now, e <> Page.CommentClick value now) -> extra = [])).
  { intros ui' E. exists []. rewrite app_nil_r. repeat split; trivial. cbn. lia. }
  destruct e as [| f | | r | c | value now]; cbn [Page.step].
  - contradiction.
  - apply Same. unfold Page.fileChange. destruct f as [f|]; [|reflexivity].
    cbv zeta. destruct (negb _ && negb _); reflexivity.
  - apply Same. destruct (Page.runDisabled ui); [reflexivity|].
    unfold Page.runClick. destruct (Full.chosen (Page.session ui)); reflexivity.
  - apply Same. unfold Page.runSettled. destruct r; reflexivity.
  - apply Same. unfold Page.filterClick.
    destruct (Page.area ui); try reflexivity.
    unfold Full.clickFilter. cbn [Full.lastReport].
    destruct (Full.lastReport (Page.session ui)); reflexivity.
  - unfold Page.commentClick. destruct (Page.area ui) as [t | | v cl].
    + now apply Same.
    + now apply Same.
    + cbn [Page.withSession Page.session].
      destruct (addComment_comments value now (Page.session ui))
        as [[_ E] | [_ [E _]]].
      * rewrite E. now apply Same.
      * rewrite E. eexists. split; [reflexivity|]. split; [cbn; lia|].
        intros H. exfalso. now apply (H value now).
Qed.

Lemma comments_append_only_witness :
  exists extra,
    Full.comments
      (Page.session
         (Page.step (Page.run sampleEvents)
            (Page.RunSettled (Page.Parsed emptyReport))))
    = Full.comments (Page.session (Page.run sampleEvents)) ++ extra
    /\ (List.length extra <= 1)%nat
    /\ ((forall value now,
           Page.RunSettled (Page.Parsed emptyReport) <> Page.CommentClick value now)
        -> extra = []).
Proof.
  apply (comments_append_only (Page.run sampleEvents)
           (Page.RunSettled (Page.Parsed emptyReport))).
  discriminate.
Defined.

(** ** The exported file *)

Section ExportFacts.

Lemma contains_app_left (a b k : str) : contains a k -> contains (a ++ b) k.
Proof.
  intros [pre [post ->]]. exists pre, (post ++ b). now rewrite <- !app_assoc.
Qed.

Lemma contains_app_right (a b k : str) : contains b k -> contains (a ++ b) k.
Proof.
  intros [pre [post ->]]. exists (a ++ pre), post. now rewrite <- !app_assoc.
Qed.

Lemma contains_self (k : str) : contains k k.
Proof. exists [], []. now rewrite app_nil_r. Qed.

Lemma contains_concat (ys : list str) (y : str) :
  In y ys -> contains (List.concat ys) y.
Proof.
  induction ys as [|z ys IH]; [intros []|]. cbn [List.concat]. intros [-> | H].
  - apply contains_app_left, contains_self.
  - now apply contains_app_right, IH.
Qed.

Lemma mapi_from_nth {A B : Type} (f : A -> nat -> B) (l : list A) (i j : nat) (x : A) :
  nth_error l j = Some x -> In (f x (i + j)%nat) (mapi_from i f l).
Proof.
  revert i j. induction l as [|y l IH]; intros i [|j]; cbn [nth_error mapi_from];
    try discriminate.
  - intros E. injection E as ->. left. f_equal. lia.
  - intros E. right. replace (i + S j)%nat with (S i + j)%nat by lia. now apply IH.
Qed.

Lemma mapi_nth {A B : Type} (f : A -> nat -> B) (l : list A) (j : nat) (x : A) :
  nth_error l j = Some x -> In (f x j) (mapi f l).
Proof. intros H. exact (mapi_from_nth f l 0 j x H). Qed.

Lemma issuesSection_entry (l : list Issue) (j : nat) (issue : Issue) :
  nth_error l j = Some issue ->
  contains (Download.issuesSection l) (Download.issueEntry issue j).
Proof.
  intros H. unfold Download.issuesSection.
  destruct l as [|i l']; [destruct j; discriminate H|].
  apply contains_app_right, contains_concat. now apply mapi_nth.
Qed.

Lemma checklist_line (l : list Issue) (j : nat) (issue : Issue) :
  nth_error l j = Some issue ->
  contains (Download.checklistSection l)
           (u "[ ] " ++ ofNat (j + 1) ++ u ". " ++ show (message issue) ++ nl).
Proof.
  intros H. unfold Download.checklistSection.
  apply contains_app_right, contains_concat.
  exact (mapi_nth (fun issue i =>
                     u "[ ] " ++ ofNat (i + 1) ++ u ". " ++ show (message issue) ++ nl)
                  l j issue H).
Qed.

Lemma commentsSection_entry (cs : list Comment) (j : nat) (c : Comment) :
  nth_error cs j = Some c ->
  contains (Download.commentsSection cs)
           (u "КОММЕНТАРИЙ #" ++ ofNat (j + 1) ++ u " (" ++ timestamp c
            ++ u "):" ++ nl ++ text c ++ nl ++ nl).
Proof.
  intros H. unfold Download.commentsSection.
  destruct cs as [|c0 cs']; [destruct j; discriminate H|].
  apply contains_app_right, contains_concat.
  exact (mapi_nth (fun comment i =>
                     u "КОММЕНТАРИЙ #" ++ ofNat (i + 1) ++ u " (" ++ timestamp comment
                     ++ u "):" ++ nl ++ text comment ++ nl ++ nl)
                  (c0 :: cs') j c H).
Qed.

Lemma download_parts (env : Download.Env) (st : Full.Session) (report : Report) :
  Full.lastReport st = Some report ->
  exists doc,
    Download.downloadReportWithComments env st = Some doc
    /\ (forall k, contains (Download.issuesSection (issuesOf report)) k ->
                  contains doc k)
    /\ (forall k, contains (Download.commentsSection (Full.comments st)) k ->
                  contains doc k)
    /\ (forall k, contains (Download.checklistSection (issuesOf report)) k ->
                  contains doc k).
Proof.
  intros L. unfold Download.downloadReportWithComments. rewrite L.
  eexists. split; [reflexivity|]. repeat split; intros k H.
  - do 3 apply contains_app_right. now apply contains_app_left.
  - do 4 apply contains_app_right. now apply contains_app_left.
  - do 5 apply contains_app_right. now apply contains_app_left.
Qed.

End ExportFacts.

(** X19. The export numbers the issues from 1 in the order of the report:
    for the issue at position j it contains the detailed entry
    "j+1. [LABEL] message" with its hint block, and the checklist line
    "[ ] j+1. message". *)
Theorem export_lists_every_issue
        (env : Download.Env) (st : Full.Session) (report : Report)
        (j : nat) (issue : Issue) :
  Full.lastReport st = Some report ->
  nth_error (issuesOf report) j = Some issue ->
  exists doc,
    Download.downloadReportWithComments env st = Some doc
    /\ contains doc (Download.issueEntry issue j)
    /\ contains doc
         (u "[ ] " ++ ofNat (j + 1) ++ u ". " ++ show (message issue) ++ nl).
Proof.
  intros L H. destruct (download_parts env st report L) as [doc [D [I [_ C]]]].
  exists doc. split; [exact D|]. split.
  - now apply I, issuesSection_entry.
  - now apply C, checklist_line.
Qed.

Lemma export_lists_every_issue_witness :
  exists doc,
    Download.downloadReportWithComments sampleEnv oneIssueSession = Some doc
    /\ contains doc (Download.issueEntry warningIssue 0)
    /\ contains doc
         (u "[ ] " ++ ofNat 1 ++ u ". " ++ show (message warningIssue) ++ nl).
Proof.
  exact (export_lists_every_issue sampleEnv oneIssueSession _ 0 warningIssue
           eq_refl eq_refl).
Defined.

(** X20. A comment that was added appears in the export: after addComment
    with a text that is not blank, the export contains the entry with the
    next comment number, the time stamp and the trimmed text. *)
Theorem added_comment_is_exported
        (env : Download.Env) (st : Full.Session) (report : Report)
        (value now : str) :
  Full.lastReport st = Some report ->
  trim value <> [] ->
  exists doc,
    Download.downloadReportWithComments env (addComment value now st) = Some doc
    /\ contains doc
         (u "КОММЕНТАРИЙ #" ++ ofNat (List.length (Full.comments st) + 1)
          ++ u " (" ++ now ++ u "):" ++ nl ++ trim value ++ nl ++ nl).
Proof.
  intros L NE.
  destruct (addComment_comments value now st) as [[E _] | [_ [Ec [_ [El _]]]]];
    [contradiction|].
  rewrite <- El in L.
  destruct (download_parts env _ report L) as [doc [D [_ [C _]]]].
  exists doc. split; [exact D|]. apply C.
  apply (commentsSection_entry _ (List.length (Full.comments st))
           {| text := trim value; timestamp := now |}).
  rewrite Ec, nth_error_app2 by lia. now rewrite Nat.sub_diag.
Qed.

Lemma added_comment_is_exported_witness :
  exists doc,
    Download.downloadReportWithComments sampleEnv
      (addComment (u " см. стр. 3 ") (u "02.11.2026, 10:07") oneIssueSession)
    = Some doc
    /\ contains doc
         (u "КОММЕНТАРИЙ #" ++ ofNat (List.length (Full.comments oneIssueSession) + 1)
          ++ u " (" ++ u "02.11.2026, 10:07" ++ u "):" ++ nl
          ++ trim (u " см. стр. 3 ") ++ nl ++ nl).
Proof.
  refine (added_comment_is_exported sampleEnv oneIssueSession _
            (u " см. стр. 3 ") (u "02.11.2026, 10:07") eq_refl _).
  apply str_eqb_neq. vm_compute. reflexivity.
Defined.

Section FileNameFacts.

Lemma strip_last_dot (base tail : str) :
  tail <> [] -> forallb plainUnit tail = true ->
  stripExtension (base ++ 46 :: tail) = base.
Proof.
  intros NE Ht. induction base as [|c base IH]; cbn [app stripExtension].
  - destruct tail as [|t tail]; [contradiction|].
    change (forallb (fun d => negb ((d =? 47) || (d =? 46))) (t :: tail))
      with (forallb plainUnit (t :: tail)).
    now rewrite Ht.
  - change (forallb (fun d => negb ((d =? 47) || (d =? 46))) (base ++ 46 :: tail))
      with (forallb plainUnit (base ++ 46 :: tail)).
    rewrite forallb_app. cbn [forallb]. unfold plainUnit at 2. cbn [N.eqb].
    rewrite ?andb_false_r, ?andb_false_l. cbn [orb negb andb].
    rewrite ?andb_false_r. now rewrite IH.
Qed.

Lemma lower_dot (c : N) : lowerUnit c = 46 -> c = 46.
Proof.
  unfold lowerUnit.
  destruct ((65 <=? c) && (c <=? 90)) eqn:A.
  { apply andb_true_iff in A as [A _]. apply N.leb_le in A. lia. }
  destruct ((192 <=? c) && (c <=? 222) && negb (c =? 215)) eqn:B.
  { apply andb_true_iff in B as [B _]. apply andb_true_iff in B as [B _].
    apply N.leb_le in B. lia. }
  destruct ((1024 <=? c) && (c <=? 1039)) eqn:C.
  { apply andb_true_iff in C as [C _]. apply N.leb_le in C. lia. }
  destruct ((1040 <=? c) && (c <=? 1071)) eqn:D.
  { apply andb_true_iff in D as [D _]. apply N.leb_le in D. lia. }
  trivial.
Qed.

Lemma lower_letter_plain (c x : N) :
  lowerUnit c = x -> 97 <= x <= 122 -> plainUnit c = true.
Proof.
  intros E Hx. unfold plainUnit.
  destruct (N.eqb_spec c 47) as [-> | _]; [vm_compute in E; lia|].
  destruct (N.eqb_spec c 46) as [-> | _]; [vm_compute in E; lia|].
  reflexivity.
Qed.

Lemma endsWith_split (s suffix : str) :
  endsWith s suffix = true -> exists base, s = base ++ suffix.
Proof.
  unfold endsWith. intros H. apply startsWith_spec in H as [rest H].
  exists (rev rest). apply (f_equal (@rev N)) in H.
  now rewrite rev_involutive, rev_app_distr, rev_involutive in H.
Qed.

Lemma accepted_split (name : str) :
  accepted name = true ->
  exists base ext,
    name = base ++ ext
    /\ (toLowerCase ext = u ".docx" \/ toLowerCase ext = u ".pdf").
Proof.
  unfold accepted. intros H. apply orb_true_iff in H.
  assert (S : exists suffix base',
             (suffix = u ".docx" \/ suffix = u ".pdf")
             /\ toLowerCase name = base' ++ suffix).
  { destruct H as [H | H]; apply endsWith_split in H as [b E];
      [exists (u ".docx"), b | exists (u ".pdf"), b]; split; tauto. }
  destruct S as [suffix [base' [Hs E]]].
  unfold toLowerCase in E. apply map_eq_app in E as [base [ext [-> [_ Hx]]]].
  exists base, ext. split; [reflexivity|]. unfold toLowerCase. rewrite Hx.
  exact Hs.
Qed.

Lemma extension_stripped (base ext : str) :
  toLowerCase ext = u ".docx" \/ toLowerCase ext = u ".pdf" ->
  stripExtension (base ++ ext) = base.
Proof.
  unfold toLowerCase.
  intros [H | H].
  - destruct ext as [|c0 [|c1 [|c2 [|c3 [|c4 [|c5 ext]]]]]]; try discriminate H.
    injection H as H0 H1 H2 H3 H4. apply lower_dot in H0. subst c0.
    apply strip_last_dot; [discriminate|]. cbn [forallb].
    rewrite (lower_letter_plain _ _ H1), (lower_letter_plain _ _ H2),
      (lower_letter_plain _ _ H3), (lower_letter_plain _ _ H4); [reflexivity|..];
      lia.
  - destruct ext as [|c0 [|c1 [|c2 [|c3 [|c4 ext]]]]]; try discriminate H.
    injection H as H0 H1 H2 H3. apply lower_dot in H0. subst c0.
    apply strip_last_dot; [discriminate|]. cbn [forallb].
    rewrite (lower_letter_plain _ _ H1), (lower_letter_plain _ _ H2),
      (lower_letter_plain _ _ H3); [reflexivity|..]; lia.
Qed.

End FileNameFacts.

(** X21. Whatever the user did before, the name of the downloaded file is
    "verifyflow_отчет_", the name of the chosen file without its .docx or
    .pdf extension, "_", the date and ".txt". *)
Theorem download_name (events : list Page.Event) (date name : str) :
  Full.chosen (Page.session (Page.run events)) = Some name ->
  exists base ext,
    name = base ++ ext
    /\ (toLowerCase ext = u ".docx" \/ toLowerCase ext = u ".pdf")
    /\ fileName date (Page.session (Page.run events))
       = u "verifyflow_отчет_" ++ base ++ u "_" ++ date ++ u ".txt".
Proof.
  intros C. destruct (invariant_run events) as [Hc _]. cbv zeta in Hc.
  destruct (accepted_split name (Hc name C)) as [base [ext [-> Hx]]].
  exists base, ext. split; [reflexivity|]. split; [exact Hx|].
  unfold fileName. rewrite C. now rewrite (extension_stripped base ext Hx).
Qed.

Lemma download_name_witness :
  exists base ext,
    u "Диплом.DOCX" = base ++ ext
    /\ (toLowerCase ext = u ".docx" \/ toLowerCase ext = u ".pdf")
    /\ fileName (u "2026-11-02") (Page.session (Page.run sampleEvents))
       = u "verifyflow_отчет_" ++ base ++ u "_" ++ u "2026-11-02" ++ u ".txt".
Proof.
  apply (download_name sampleEvents (u "2026-11-02") (u "Диплом.DOCX")).
  vm_compute. reflexivity.
Defined.

(** X22. A token of the form prefix:N with "page:" in it and no other colon
    (such as "page:12") is labelled "Страница N" in the distribution, unless
    the message mentions "ФИО"/"фио", and the export's location hint for it
    is "МЕСТОПОЛОЖЕНИЕ: Страница N". *)
Theorem page_token_label (issue : Issue) (a b : str) :
  location issue = val (a ++ 58 :: b) ->
  ~ In 58 a -> ~ In 58 b ->
  includes (a ++ 58 :: b) (u "page:") = true ->
  whenStr (message issue) (fun m => includes m (u "ФИО") || includes m (u "фио"))
  = false ->
  Buckets.locationName issue = Some (u "Страница " ++ b)
  /\ Download.locationDetailedHint (a ++ 58 :: b)
     = u "МЕСТОПОЛОЖЕНИЕ: Страница " ++ b ++ nl.
Proof.
  intros L Ha Hb P M.
  assert (C : In 58 (a ++ 58 :: b)) by (apply in_or_app; right; now left).
  assert (T : str_eqb (a ++ 58 :: b) (u "title_page") = false)
    by (apply colon_differs; [exact C | vm_compute; reflexivity]).
  assert (K : str_eqb (a ++ 58 :: b) (u "calendar_plan_table") = false)
    by (apply colon_differs; [exact C | vm_compute; reflexivity]).
  split.
  - unfold Buckets.locationName. rewrite L.
    destruct (a ++ 58 :: b) as [|c r] eqn:E; [destruct a; discriminate E|].
    rewrite M, T, P. rewrite <- E. now rewrite (pageNum_between a b Ha Hb).
  - unfold Download.locationDetailedHint.
    rewrite T, K, P. now rewrite (pageNum_between a b Ha Hb).
Qed.

Lemma page_token_label_witness :
  Buckets.locationName surnameIssue = Some (u "Страница " ++ u "3").
Proof.
  refine (proj1 (page_token_label surnameIssue (u "page") (u "3") _ _ _ _ _)).
  - vm_compute. reflexivity.
  - vm_compute. intuition discriminate.
  - vm_compute. intuition discriminate.
  - vm_compute. reflexivity.
  - vm_compute. reflexivity.
Defined.

(** X23. An issue without a message (absent, null or empty) never gets a
    name or order-number hint, whatever its rule says: on the page it gets
    the location badge when it has a location and no badge otherwise, and
    its card is titled "Нарушение". *)
Theorem no_message_no_keyword_hint (it : Issue) (index : nat) :
  truthy (message it) = false ->
  Hints.isFIO it = false
  /\ Hints.isOrderNumber it = false
  /\ selectedFamily it
     = (if truthy (location it) then Some GenericLocation else None)
  /\ Full.cardMessage (Full.renderIssue it index) = esc (u "Нарушение")
  /\ Buckets.locationName it
     = Buckets.locationName
         {| message := undefined; severity := severity it; location := location it;
            rule := rule it; evidence := evidence it; how_to_fix := how_to_fix it |}.
Proof.
  intros H.
  assert (W : forall f, whenStr (message it) f = false).
  { intros f. destruct (message it) as [| | [|c r]]; try reflexivity.
    discriminate H. }
  assert (F : Hints.isFIO it = false) by apply W.
  assert (O : Hints.isOrderNumber it = false) by apply W.
  split; [exact F|]. split; [exact O|]. split.
  - unfold selectedFamily, Full.locationBadge. rewrite F, O.
    destruct (location it) as [| | [|c r]]; cbn [truthy familyOf]; try reflexivity.
    repeat match goal with
           | |- familyOf (if ?c then _ else _) = _ => destruct c
           end; reflexivity.
  - split.
    + cbn [Full.renderIssue Full.cardMessage].
      destruct (message it) as [| | [|c r]]; try reflexivity. discriminate H.
    + unfold Buckets.locationName. cbn [location message whenStr].
      destruct (location it) as [| | [|c r]]; try reflexivity.
      now rewrite W.
Qed.

Lemma no_message_no_keyword_hint_witness :
  selectedFamily
    {| message := null; severity := val (u "warning"); location := undefined;
       rule := val (u "OrderNumberRule"); evidence := undefined;
       how_to_fix := undefined |} = None.
Proof.
  refine (proj1 (proj2 (proj2 (no_message_no_keyword_hint
            {| message := null; severity := val (u "warning");
               location := undefined; rule := val (u "OrderNumberRule");
               evidence := undefined; how_to_fix := undefined |} 0 _)))).
  reflexivity.
Defined.
